(** * shraga: scheduling store, HTTP probe and worker pool

    A shallow embedding of the Go packages [monitor], [db] and [manager]
    and the properties of their lock, due-list, timeout clamp, probe
    outcome and shutdown logic. *)

From Stdlib Require Import ZArith List String Bool Lia.
From Stdlib Require Import DecimalString.
Import ListNotations.
Local Open Scope string_scope.
Local Open Scope Z_scope.

(** ** Package [time]

    A [time.Duration] is an int64 count of nanoseconds.  A [time.Time] is
    modelled as the number of nanoseconds since Go's zero Time (January 1,
    year 1, UTC); its range (int64 seconds) is far wider than any int64
    nanosecond offset, so instants are unbounded integers here. *)
Module time.

Definition Duration := Z.
Definition Time := Z.

Definition Nanosecond : Duration := 1.
Definition Millisecond : Duration := 1000000.
Definition Second : Duration := 1000000000.
Definition Minute : Duration := 60 * Second.
Definition Hour : Duration := 60 * Minute.

Definition minDuration : Duration := - 2 ^ 63.
Definition maxDuration : Duration := 2 ^ 63 - 1.

(** The zero value of [time.Time]. *)
Definition zero : Time := 0.

(** [t.Add(d)] *)
Definition Add (t : Time) (d : Duration) : Time := t + d.

(** [t.Before(u)] *)
Definition Before (t u : Time) : bool := t <? u.

(** [t.Sub(u)]: the difference, saturated to the int64 range. *)
Definition Sub (t u : Time) : Duration :=
  let d := t - u in
  if d <? minDuration then minDuration
  else if maxDuration <? d then maxDuration
  else d.

(** [d.Milliseconds()]: integer division truncating toward zero. *)
Definition Milliseconds (d : Duration) : Z := Z.quot d 1000000.

End time.

(** Go's [error] values are carried by their text. *)
Definition error := string.

(** [fmt.Sprintf("%d", n)] for an unsigned value. *)
Definition fmt_d (n : N) : string := NilZero.string_of_uint (N.to_uint n).

(** ** Package [encoding/json]

    The codec is a library outside the repository.  Its four uses are taken
    as an interface: [Marshal] on [[]int] and on [map[string]string], and
    [Unmarshal] into the same two types ([None] is the nil slice or map that
    the document [null] leaves behind). *)
Class Json := {
  Marshal_ints : list Z -> error + string;
  Marshal_headers : list (string * string) -> error + string;
  Unmarshal_ints : string -> error + option (list Z);
  Unmarshal_headers : string -> error + option (list (string * string));
}.

(** ** Package [monitor] *)
Module monitor.

Inductive MonitorType := TypeUnknown | TypeHTTP.

Inductive Result := ResultUnknown | ResultUp | ResultDown | ResultWarn.

(** [func (i MonitorType) String()], as the directive
    [go:generate stringer -type MonitorType -trimprefix Type] produces it. *)
Definition MonitorType_String (i : MonitorType) : string :=
  match i with
  | TypeUnknown => "Unknown"
  | TypeHTTP => "HTTP"
  end.

Record BaseMonitorResponse := {
  RespID : N;
  MonitorID : N;
  ResponseTime : time.Time;
  Result_ : Result;
  ErrorMsg : string;
}.

Record BaseMonitor := {
  ID : N;
  Type_ : MonitorType;
  IntervalInt : Z;               (* column "interval", nanoseconds *)
  Interval : time.Duration;      (* gorm:"-" *)
  Enabled : bool;
  LastMonitorTime : time.Time;
  IsMonitoring : bool;
  CreatedAt : time.Time;
  UpdatedAt : time.Time;
}.

Definition set_Interval (d : time.Duration) (b : BaseMonitor) : BaseMonitor :=
  {| ID := ID b; Type_ := Type_ b; IntervalInt := IntervalInt b;
     Interval := d; Enabled := Enabled b;
     LastMonitorTime := LastMonitorTime b; IsMonitoring := IsMonitoring b;
     CreatedAt := CreatedAt b; UpdatedAt := UpdatedAt b |}.

Definition set_IntervalInt (n : Z) (b : BaseMonitor) : BaseMonitor :=
  {| ID := ID b; Type_ := Type_ b; IntervalInt := n;
     Interval := Interval b; Enabled := Enabled b;
     LastMonitorTime := LastMonitorTime b; IsMonitoring := IsMonitoring b;
     CreatedAt := CreatedAt b; UpdatedAt := UpdatedAt b |}.

Definition set_IsMonitoring (v : bool) (b : BaseMonitor) : BaseMonitor :=
  {| ID := ID b; Type_ := Type_ b; IntervalInt := IntervalInt b;
     Interval := Interval b; Enabled := Enabled b;
     LastMonitorTime := LastMonitorTime b; IsMonitoring := v;
     CreatedAt := CreatedAt b; UpdatedAt := UpdatedAt b |}.

Definition set_LastMonitorTime (t : time.Time) (b : BaseMonitor) : BaseMonitor :=
  {| ID := ID b; Type_ := Type_ b; IntervalInt := IntervalInt b;
     Interval := Interval b; Enabled := Enabled b;
     LastMonitorTime := t; IsMonitoring := IsMonitoring b;
     CreatedAt := CreatedAt b; UpdatedAt := UpdatedAt b |}.

(** [func (b *BaseMonitor) BeforeSave]: serialize the duration as
    nanoseconds; never fails. *)
Definition BaseMonitor_BeforeSave (b : BaseMonitor) : option error * BaseMonitor :=
  (None, set_IntervalInt (Interval b) b).

(** [func (b *BaseMonitor) AfterFind] *)
Definition BaseMonitor_AfterFind (b : BaseMonitor) : option error * BaseMonitor :=
  (None, set_Interval (IntervalInt b) b).

Definition defaultHttpClientTimeout : time.Duration := 30 * time.Second.
Definition maxHttpClientTimeout : time.Duration := 5 * time.Minute.
Definition minHttpClientTimeout : time.Duration := 1 * time.Second.

(** [SSLDetails] stores SSL-specific information. *)
Record SSLDetails := {
  Valid : bool;
  Expiry : time.Time;
}.

(** A [driver.Value]: what the database driver hands to a [Scanner]. *)
Inductive driver_Value :=
| VNil
| VInt64 (n : Z)
| VFloat64 (bits : Z)
| VBool (b : bool)
| VBytes (b : string)
| VString (s : string)
| VTime (t : time.Time).

(** [encoding/json] on [SSLDetails], and [%v] of [fmt] on a driver
    value. *)
Class SSLCodec := {
  Marshal_ssl : SSLDetails -> error + string;
  Unmarshal_ssl : string -> SSLDetails -> option error * SSLDetails;
  fmt_v : driver_Value -> string;
}.

(** [func (s SSLDetails) Value() (driver.Value, error)] *)
Definition SSLDetails_Value `{SSLCodec} (s : SSLDetails) : error + driver_Value :=
  match Marshal_ssl s with
  | inl err => inl err
  | inr b => inr (VBytes b)
  end.

(** [func (s *SSLDetails) Scan(value interface{}) error]: the error and
    the receiver as the call leaves it. *)
Definition SSLDetails_Scan `{SSLCodec} (value : driver_Value) (s : SSLDetails)
  : option error * SSLDetails :=
  match value with
  | VBytes bytes => Unmarshal_ssl bytes s
  | _ => (Some ("failed to unmarshal SSLDetails value: " ++ fmt_v value), s)
  end.

Record HttpResponse := {
  BaseResp : BaseMonitorResponse;
  SslResp : SSLDetails;
  Latency : Z;
  DataValid : bool;
  StatusCodeValid : bool;
}.

(** Slices and maps are [option]s: [None] is Go's nil, which the hooks
    test for.  The header map is kept as an association list. *)
Record HttpMonitor := {
  Base : BaseMonitor;
  Address : string;
  ValidStatusCodes : option (list Z);                (* gorm:"-" *)
  ValidStatusCodesJSON : string;
  ShouldWarnOnSSLExpiry : bool;
  ShouldCheckSSL : bool;
  ExpectedResponse : string;
  ShouldCheckResponse : bool;
  ReqBody : string;
  ReqContentType : string;
  ReqHeaders : option (list (string * string));      (* gorm:"-" *)
  ReqHeadersJSON : string;
  RequestMethod : string;
  ReqTimeoutInt : Z;                                 (* column "req_timeout" *)
  ReqTimeout : time.Duration;                        (* gorm:"-" *)
}.

Definition set_Base (b : BaseMonitor) (hm : HttpMonitor) : HttpMonitor :=
  {| Base := b; Address := Address hm;
     ValidStatusCodes := ValidStatusCodes hm;
     ValidStatusCodesJSON := ValidStatusCodesJSON hm;
     ShouldWarnOnSSLExpiry := ShouldWarnOnSSLExpiry hm;
     ShouldCheckSSL := ShouldCheckSSL hm;
     ExpectedResponse := ExpectedResponse hm;
     ShouldCheckResponse := ShouldCheckResponse hm;
     ReqBody := ReqBody hm; ReqContentType := ReqContentType hm;
     ReqHeaders := ReqHeaders hm; ReqHeadersJSON := ReqHeadersJSON hm;
     RequestMethod := RequestMethod hm;
     ReqTimeoutInt := ReqTimeoutInt hm; ReqTimeout := ReqTimeout hm |}.

Definition set_ValidStatusCodes (v : option (list Z)) (hm : HttpMonitor) : HttpMonitor :=
  {| Base := Base hm; Address := Address hm;
     ValidStatusCodes := v;
     ValidStatusCodesJSON := ValidStatusCodesJSON hm;
     ShouldWarnOnSSLExpiry := ShouldWarnOnSSLExpiry hm;
     ShouldCheckSSL := ShouldCheckSSL hm;
     ExpectedResponse := ExpectedResponse hm;
     ShouldCheckResponse := ShouldCheckResponse hm;
     ReqBody := ReqBody hm; ReqContentType := ReqContentType hm;
     ReqHeaders := ReqHeaders hm; ReqHeadersJSON := ReqHeadersJSON hm;
     RequestMethod := RequestMethod hm;
     ReqTimeoutInt := ReqTimeoutInt hm; ReqTimeout := ReqTimeout hm |}.

Definition set_ValidStatusCodesJSON (v : string) (hm : HttpMonitor) : HttpMonitor :=
  {| Base := Base hm; Address := Address hm;
     ValidStatusCodes := ValidStatusCodes hm;
     ValidStatusCodesJSON := v;
     ShouldWarnOnSSLExpiry := ShouldWarnOnSSLExpiry hm;
     ShouldCheckSSL := ShouldCheckSSL hm;
     ExpectedResponse := ExpectedResponse hm;
     ShouldCheckResponse := ShouldCheckResponse hm;
     ReqBody := ReqBody hm; ReqContentType := ReqContentType hm;
     ReqHeaders := ReqHeaders hm; ReqHeadersJSON := ReqHeadersJSON hm;
     RequestMethod := RequestMethod hm;
     ReqTimeoutInt := ReqTimeoutInt hm; ReqTimeout := ReqTimeout hm |}.

Definition set_ReqHeaders (v : option (list (string * string))) (hm : HttpMonitor) : HttpMonitor :=
  {| Base := Base hm; Address := Address hm;
     ValidStatusCodes := ValidStatusCodes hm;
     ValidStatusCodesJSON := ValidStatusCodesJSON hm;
     ShouldWarnOnSSLExpiry := ShouldWarnOnSSLExpiry hm;
     ShouldCheckSSL := ShouldCheckSSL hm;
     ExpectedResponse := ExpectedResponse hm;
     ShouldCheckResponse := ShouldCheckResponse hm;
     ReqBody := ReqBody hm; ReqContentType := ReqContentType hm;
     ReqHeaders := v; ReqHeadersJSON := ReqHeadersJSON hm;
     RequestMethod := RequestMethod hm;
     ReqTimeoutInt := ReqTimeoutInt hm; ReqTimeout := ReqTimeout hm |}.

Definition set_ReqHeadersJSON (v : string) (hm : HttpMonitor) : HttpMonitor :=
  {| Base := Base hm; Address := Address hm;
     ValidStatusCodes := ValidStatusCodes hm;
     ValidStatusCodesJSON := ValidStatusCodesJSON hm;
     ShouldWarnOnSSLExpiry := ShouldWarnOnSSLExpiry hm;
     ShouldCheckSSL := ShouldCheckSSL hm;
     ExpectedResponse := ExpectedResponse hm;
     ShouldCheckResponse := ShouldCheckResponse hm;
     ReqBody := ReqBody hm; ReqContentType := ReqContentType hm;
     ReqHeaders := ReqHeaders hm; ReqHeadersJSON := v;
     RequestMethod := RequestMethod hm;
     ReqTimeoutInt := ReqTimeoutInt hm; ReqTimeout := ReqTimeout hm |}.

Definition set_ReqTimeoutInt (v : Z) (hm : HttpMonitor) : HttpMonitor :=
  {| Base := Base hm; Address := Address hm;
     ValidStatusCodes := ValidStatusCodes hm;
     ValidStatusCodesJSON := ValidStatusCodesJSON hm;
     ShouldWarnOnSSLExpiry := ShouldWarnOnSSLExpiry hm;
     ShouldCheckSSL := ShouldCheckSSL hm;
     ExpectedResponse := ExpectedResponse hm;
     ShouldCheckResponse := ShouldCheckResponse hm;
     ReqBody := ReqBody hm; ReqContentType := ReqContentType hm;
     ReqHeaders := ReqHeaders hm; ReqHeadersJSON := ReqHeadersJSON hm;
     RequestMethod := RequestMethod hm;
     ReqTimeoutInt := v; ReqTimeout := ReqTimeout hm |}.

Definition set_ReqTimeout (v : time.Duration) (hm : HttpMonitor) : HttpMonitor :=
  {| Base := Base hm; Address := Address hm;
     ValidStatusCodes := ValidStatusCodes hm;
     ValidStatusCodesJSON := ValidStatusCodesJSON hm;
     ShouldWarnOnSSLExpiry := ShouldWarnOnSSLExpiry hm;
     ShouldCheckSSL := ShouldCheckSSL hm;
     ExpectedResponse := ExpectedResponse hm;
     ShouldCheckResponse := ShouldCheckResponse hm;
     ReqBody := ReqBody hm; ReqContentType := ReqContentType hm;
     ReqHeaders := ReqHeaders hm; ReqHeadersJSON := ReqHeadersJSON hm;
     RequestMethod := RequestMethod hm;
     ReqTimeoutInt := ReqTimeoutInt hm; ReqTimeout := v |}.

Section Hooks.
Context `{Json}.

(** The timeout branch of [BeforeSave] (http_monitor.go:100-106). *)
Definition BeforeSave_timeout (t : time.Duration) : time.Duration :=
  if t =? 0 then defaultHttpClientTimeout
  else if t >? maxHttpClientTimeout then maxHttpClientTimeout
  else if t <? minHttpClientTimeout then minHttpClientTimeout
  else t.

(** [func (hm *HttpMonitor) BeforeSave].  The hook mutates the receiver
    and returns an error; the pair is the returned error and the
    receiver as the hook leaves it. *)
Definition BeforeSave (hm : HttpMonitor) : option error * HttpMonitor :=
  match BaseMonitor_BeforeSave (Base hm) with
  | (Some err, b) => (Some err, set_Base b hm)
  | (None, b) =>
    let hm := set_Base b hm in
    (* Serialize ValidStatusCodes to JSON *)
    let r1 :=
      match ValidStatusCodes hm with
      | Some codes =>
        match Marshal_ints codes with
        | inl err => inl err
        | inr validCodesJSON => inr (set_ValidStatusCodesJSON validCodesJSON hm)
        end
      | None => inr hm
      end in
    match r1 with
    | inl err => (Some err, hm)
    | inr hm =>
      let r2 :=
        match ReqHeaders hm with
        | Some headers =>
          match Marshal_headers headers with
          | inl err => inl err
          | inr headersJSON => inr (set_ReqHeadersJSON headersJSON hm)
          end
        | None => inr hm
        end in
      match r2 with
      | inl err => (Some err, hm)
      | inr hm =>
        let hm := set_ReqTimeout (BeforeSave_timeout (ReqTimeout hm)) hm in
        let hm := set_ReqTimeoutInt (ReqTimeout hm) hm in
        (None, hm)
      end
    end
  end.

(** The timeout branch of [AfterFind] (http_monitor.go:135-140). *)
Definition AfterFind_timeout (t : time.Duration) : time.Duration :=
  if t >? maxHttpClientTimeout then maxHttpClientTimeout
  else if t <? minHttpClientTimeout then minHttpClientTimeout
  else t.

(** [func (hm *HttpMonitor) AfterFind] *)
Definition AfterFind (hm : HttpMonitor) : option error * HttpMonitor :=
  match BaseMonitor_AfterFind (Base hm) with
  | (Some err, b) => (Some err, set_Base b hm)
  | (None, b) =>
    let hm := set_Base b hm in
    (* Deserialize ValidStatusCodes from JSON *)
    let r1 :=
      if String.eqb (ValidStatusCodesJSON hm) EmptyString then inr hm
      else match Unmarshal_ints (ValidStatusCodesJSON hm) with
           | inl err => inl err
           | inr validCodes => inr (set_ValidStatusCodes validCodes hm)
           end in
    match r1 with
    | inl err => (Some err, hm)
    | inr hm =>
      let r2 :=
        if String.eqb (ReqHeadersJSON hm) EmptyString then inr hm
        else match Unmarshal_headers (ReqHeadersJSON hm) with
             | inl err => inl err
             | inr headers => inr (set_ReqHeaders headers hm)
             end in
      match r2 with
      | inl err => (Some err, hm)
      | inr hm =>
        let hm := set_ReqTimeout (ReqTimeoutInt hm) hm in
        let hm := set_ReqTimeout (AfterFind_timeout (ReqTimeout hm)) hm in
        (None, hm)
      end
    end
  end.

End Hooks.

Definition set_BaseResp (b : BaseMonitorResponse) (r : HttpResponse) : HttpResponse :=
  {| BaseResp := b; SslResp := SslResp r; Latency := Latency r;
     DataValid := DataValid r; StatusCodeValid := StatusCodeValid r |}.

(** [monitorResult.ErrorMsg = msg] *)
Definition set_ErrorMsg (msg : string) (r : HttpResponse) : HttpResponse :=
  set_BaseResp {| RespID := RespID (BaseResp r); MonitorID := MonitorID (BaseResp r);
                  ResponseTime := ResponseTime (BaseResp r);
                  Result_ := Result_ (BaseResp r); ErrorMsg := msg |} r.

(** [monitorResult.Result = res] *)
Definition set_Result (res : Result) (r : HttpResponse) : HttpResponse :=
  set_BaseResp {| RespID := RespID (BaseResp r); MonitorID := MonitorID (BaseResp r);
                  ResponseTime := ResponseTime (BaseResp r);
                  Result_ := res; ErrorMsg := ErrorMsg (BaseResp r) |} r.

Definition set_SslResp (s : SSLDetails) (r : HttpResponse) : HttpResponse :=
  {| BaseResp := BaseResp r; SslResp := s; Latency := Latency r;
     DataValid := DataValid r; StatusCodeValid := StatusCodeValid r |}.

Definition set_Latency (l : Z) (r : HttpResponse) : HttpResponse :=
  {| BaseResp := BaseResp r; SslResp := SslResp r; Latency := l;
     DataValid := DataValid r; StatusCodeValid := StatusCodeValid r |}.

Definition set_StatusCodeValid (v : bool) (r : HttpResponse) : HttpResponse :=
  {| BaseResp := BaseResp r; SslResp := SslResp r; Latency := Latency r;
     DataValid := DataValid r; StatusCodeValid := v |}.

(** *** The outside world of one probe

    [http.Request] as the probe builds it, the [http.Response] as the
    probe reads it, and the answers of the network and of the clock. *)
Record Request := {
  Method : string;
  URL : string;
  Body : option string;                  (* nil reader when absent *)
  Header : list (string * string);
}.

Record Response := {
  StatusCode : Z;
  ReadAll : error + string;              (* io.ReadAll(resp.Body) *)
  Close : option error;                  (* resp.Body.Close() *)
}.

Record World := {
  (** the successive readings of [time.Now] *)
  clock : nat -> time.Time;
  (** the error of [http.NewRequestWithContext] (method, url), if any *)
  NewRequest_err : string -> string -> option error;
  (** [textproto.CanonicalMIMEHeaderKey] *)
  CanonicalHeaderKey : string -> string;
  (** [url.Parse]: the error, or the [Host] of the parsed URL *)
  url_Parse : string -> error + string;
  (** [tls.Dial("tcp", addr, &tls.Config{})]: the error, or the
      [NotAfter] of the leaf certificate of the connection *)
  tls_Dial : string -> error + time.Time;
  (** [client.Do(req)] for a client with the given [Timeout] *)
  client_Do : time.Duration -> Request -> error + Response;
}.

(** What a probe does to the outside, in order. *)
Inductive Event :=
| ENow
| ENewRequest
| EUrlParse
| ETlsDial (addr : string)
| ETlsClose
| EDo (timeout : time.Duration) (req : Request)
| EReadAll
| EBodyClose.

Record St := { ticks : nat; trace : list Event }.

Definition M (A : Type) : Type := St -> A * St.
Definition ret {A} (a : A) : M A := fun s => (a, s).
Definition bind {A B} (m : M A) (k : A -> M B) : M B :=
  fun s => let (a, s') := m s in k a s'.
Definition emit (e : Event) : M unit :=
  fun s => (tt, {| ticks := ticks s; trace := trace s ++ [e] |}).

(** [h.Set(key, value)] *)
Definition Header_Set (canon : string -> string) (key value : string)
           (h : list (string * string)) : list (string * string) :=
  let k := canon key in
  (k, value) :: filter (fun kv => negb (String.eqb (fst kv) k)) h.

Definition set_Header (h : list (string * string)) (r : Request) : Request :=
  {| Method := Method r; URL := URL r; Body := Body r; Header := h |}.

(** [strings.Contains(s, substr)] *)
Definition strings_Contains (s substr : string) : bool :=
  match String.index 0 substr s with Some _ => true | None => false end.

(** [lo.Contains(collection, element)]; a nil slice has no element. *)
Definition lo_Contains (collection : option (list Z)) (element : Z) : bool :=
  match collection with
  | Some l => existsb (Z.eqb element) l
  | None => false
  end.

Section Probe.
Variable w : World.

Notation "x <- m ;; k" := (bind m (fun x => k))
  (at level 61, m at next level, right associativity).
Notation "m ;;; k" := (bind m (fun _ => k))
  (at level 61, right associativity).

(** [now()] (and the [time.Now] inside [time.Since]) *)
Definition now : M time.Time :=
  fun s => (clock w (ticks s),
            {| ticks := S (ticks s); trace := trace s ++ [ENow] |}).

(** [checkSSL] validates the SSL certificate and fetches its expiry
    date. *)
Definition checkSSL (hm : HttpMonitor) : M SSLDetails :=
  let sslDetails := {| Valid := false; Expiry := time.zero |} in
  (* Parse the URL to extract the hostname *)
  emit EUrlParse ;;;
  match url_Parse w (Address hm) with
  | inl err => ret {| Valid := false; Expiry := Expiry sslDetails |}
  | inr host =>
    let hostname :=
      if negb (strings_Contains host ":") then host ++ ":443" else host in
    emit (ETlsDial hostname) ;;;
    match tls_Dial w hostname with
    | inl err => ret {| Valid := false; Expiry := Expiry sslDetails |}
    | inr notAfter =>
      (* defer conn.Close() *)
      emit ETlsClose ;;;
      ret {| Valid := true; Expiry := notAfter |}
    end
  end.

(** [func (hm *HttpMonitor) Monitor(ctx) MonitorResponser] *)
Definition Monitor (hm : HttpMonitor) : M HttpResponse :=
  t0 <- now ;;
  let monitorResult :=
    {| BaseResp := {| RespID := 0%N; MonitorID := ID (Base hm);
                      ResponseTime := t0; Result_ := ResultDown;
                      ErrorMsg := EmptyString |};
       SslResp := {| Valid := false; Expiry := time.zero |};
       Latency := 0; DataValid := false; StatusCodeValid := false |} in
  let body := if (0 <? String.length (ReqBody hm))%nat
              then Some (ReqBody hm) else None in
  emit ENewRequest ;;;
  match NewRequest_err w (RequestMethod hm) (Address hm) with
  | Some err => ret (set_ErrorMsg err monitorResult)
  | None =>
    let req := {| Method := RequestMethod hm; URL := Address hm;
                  Body := body; Header := [] |} in
    (* Set Content-Type if request body is provided *)
    let req :=
      if negb (String.eqb (ReqBody hm) EmptyString) && negb (String.eqb (ReqContentType hm) EmptyString)
      then set_Header (Header_Set (CanonicalHeaderKey w) "Content-Type"
                                  (ReqContentType hm) (Header req)) req
      else req in
    (* Add custom headers; the order of the list stands for the order
       in which the range statement visits the map *)
    let req :=
      fold_left (fun req kv =>
                   set_Header (Header_Set (CanonicalHeaderKey w) (fst kv) (snd kv)
                                          (Header req)) req)
                (match ReqHeaders hm with Some h => h | None => [] end) req in
    monitorResult <-
      (if ShouldCheckSSL hm || ShouldWarnOnSSLExpiry hm
       then ssl <- checkSSL hm ;; ret (set_SslResp ssl monitorResult)
       else ret monitorResult) ;;
    startTime <- now ;;
    emit (EDo (ReqTimeout hm) req) ;;;
    match client_Do w (ReqTimeout hm) req with
    | inl err => ret (set_ErrorMsg err monitorResult)
    | inr resp =>
      t1 <- now ;;
      let monitorResult :=
        set_Latency (time.Milliseconds (time.Sub t1 startTime)) monitorResult in
      let monitorResult :=
        set_StatusCodeValid (lo_Contains (ValidStatusCodes hm) (StatusCode resp))
                            monitorResult in
      if negb (StatusCodeValid monitorResult)
      then ret (set_Result ResultDown monitorResult)
      else
        (* the deferred resp.Body.Close() runs after the rest *)
        out <-
          (checked <-
             (if ShouldCheckResponse hm
              then
                emit EReadAll ;;;
                match ReadAll resp with
                | inl err => ret (inl (set_ErrorMsg err monitorResult))
                | inr gotResp =>
                  if negb (String.eqb gotResp (ExpectedResponse hm))
                  then ret (inl (set_ErrorMsg
                                   ("response is not as expected: " ++ gotResp)
                                   monitorResult))
                  else ret (inr monitorResult)
                end
              else ret (inr monitorResult)) ;;
           match checked with
           | inl returned => ret returned
           | inr monitorResult =>
             warn <-
               (if ShouldWarnOnSSLExpiry hm
                then t2 <- now ;;
                     ret (time.Sub (Expiry (SslResp monitorResult)) t2
                          <? 30 * 24 * time.Hour)
                else ret false) ;;
             if warn : bool
             then ret (set_Result ResultWarn monitorResult)
             else ret (set_Result ResultUp monitorResult)
           end) ;;
        emit EBodyClose ;;;
        ret out
    end
  end.

(** Run a probe from a fresh state. *)
Definition run {A} (m : M A) : A * list Event :=
  let (a, s) := m {| ticks := 0; trace := [] |} in (a, trace s).

End Probe.

(** [h[key]] on the header map: the value stored under a key. *)
Fixpoint Header_lookup (key : string) (h : list (string * string)) : option string :=
  match h with
  | [] => None
  | (k, v) :: rest => if String.eqb k key then Some v else Header_lookup key rest
  end.

(** The main request of a probe with trace [tr] was sent as [req] by a
    client with timeout [t]. *)
Definition sent (tr : list Event) (t : time.Duration) (req : Request) : Prop :=
  In (EDo t req) tr.

(** The checks of a probe other than the one on the certificate all
    passed on the answer [resp]: the status code is accepted and, when the
    body is to be checked, it was read and equals the expected one. *)
Definition checks_passed (hm : HttpMonitor) (resp : Response) : Prop :=
  lo_Contains (ValidStatusCodes hm) (StatusCode resp) = true /\
  (ShouldCheckResponse hm = true -> ReadAll resp = inr (ExpectedResponse hm)).

(** [IsEnabled] and [GetType] of [*HttpMonitor] *)
Definition IsEnabled (hm : HttpMonitor) : bool := Enabled (Base hm).
Definition GetType (hm : HttpMonitor) : MonitorType := Type_ (Base hm).
Definition GetBase (hm : HttpMonitor) : BaseMonitor := Base hm.

End monitor.

(** ** Package [db]: the store behind [GormDb]

    A table is the list of its rows.  Every statement goes through the
    driver, which may fail it ([result.Error]: lost connection, cancelled
    context); a failed statement leaves the tables as they were.  Columns
    that gorm maintains by itself ([updated_at], generated keys) are left
    out. *)
Module db.
Import monitor.

Record Db := {
  http_monitors : list HttpMonitor;
  http_responses : list HttpResponse;
}.

Definition set_http_monitors (rows : list HttpMonitor) (d : Db) : Db :=
  {| http_monitors := rows; http_responses := http_responses d |}.

(** [UPDATE ... SET ... WHERE p]: the rows after the statement, and
    Postgres's count of the rows it matched ([RowsAffected]). *)
Definition update_where (p : HttpMonitor -> bool) (f : HttpMonitor -> HttpMonitor)
           (rows : list HttpMonitor) : list HttpMonitor :=
  map (fun r => if p r then f r else r) rows.

Definition RowsAffected (p : HttpMonitor -> bool) (rows : list HttpMonitor) : nat :=
  List.length (filter p rows).

(** [WHERE id = ?] *)
Definition id_is (id : N) (r : HttpMonitor) : bool := N.eqb (ID (Base r)) id.

(** The column [is_monitoring] and the column [last_monitor_time]. *)
Definition set_is_monitoring (v : bool) (r : HttpMonitor) : HttpMonitor :=
  set_Base (set_IsMonitoring v (Base r)) r.

Definition set_last_monitor_time (t : time.Time) (r : HttpMonitor) : HttpMonitor :=
  set_Base (set_LastMonitorTime t (Base r)) r.

(** [func (db *GormDb) SaveResult]: [Create(result)] *)
Definition SaveResult (drv : option error) (result : HttpResponse) (d : Db)
  : option error * Db :=
  match drv with
  | Some err => (Some err, d)
  | None => (None, {| http_monitors := http_monitors d;
                      http_responses := http_responses d ++ [result] |})
  end.

(** [func (db *GormDb) Lock] (monitor.go:181-193) *)
Definition Lock (drv : option error) (mon : HttpMonitor) (d : Db)
  : option error * Db :=
  match drv with
  | Some err => (Some err, d)
  | None =>
    let p := id_is (ID (GetBase mon)) in
    let d' := set_http_monitors
                (update_where p (set_is_monitoring true) (http_monitors d)) d in
    if Nat.eqb (RowsAffected p (http_monitors d)) 0
    then (Some ("monitor with ID " ++ fmt_d (ID (GetBase mon)) ++ " not found"), d')
    else (None, d')
  end.

(** [func (db *GormDb) Unlock] (monitor.go:195-210); [nowTime] is the
    reading of [now()] in the update map. *)
Definition Unlock (drv : option error) (nowTime : time.Time) (mon : HttpMonitor)
           (d : Db) : option error * Db :=
  match drv with
  | Some err => (Some err, d)
  | None =>
    let p := id_is (ID (GetBase mon)) in
    let d' := set_http_monitors
                (update_where p (fun r => set_last_monitor_time nowTime
                                            (set_is_monitoring false r))
                              (http_monitors d)) d in
    if Nat.eqb (RowsAffected p (http_monitors d)) 0
    then (Some ("monitor with ID " ++ fmt_d (ID (GetBase mon)) ++ " not found"), d')
    else (None, d')
  end.

Section Queries.
Context `{Json}.

(** Scanning a row into a fresh struct leaves the [gorm:"-"] fields at
    their zero values. *)
Definition scan (r : HttpMonitor) : HttpMonitor :=
  set_ReqTimeout 0
    (set_ReqHeaders None
       (set_ValidStatusCodes None
          (set_Base (set_Interval 0 (Base r)) r))).

(** A monitor as [Find] hands it over: the row, scanned and passed
    through its hook. *)
Definition loaded (r m : HttpMonitor) : Prop := AfterFind (scan r) = (None, m).

(** [Find(&monitors)] over the rows that matched: each is scanned and
    passed to its [AfterFind] hook; a hook error fails the query. *)
Fixpoint Find (rows : list HttpMonitor) : error + list HttpMonitor :=
  match rows with
  | [] => inr []
  | r :: rest =>
    match AfterFind (scan r) with
    | (Some err, _) => inl err
    | (None, m) =>
      match Find rest with
      | inl err => inl err
      | inr ms => inr (m :: ms)
      end
    end
  end.

(** [WHERE enabled = true AND is_monitoring = false] *)
Definition enabled_and_idle (r : HttpMonitor) : bool :=
  Enabled (Base r) && negb (IsMonitoring (Base r)).

(** The loop condition of [GetMonitorsToRun]. *)
Definition interval_elapsed (nowTime : time.Time) (mon : HttpMonitor) : bool :=
  time.Before (time.Add (LastMonitorTime (Base mon)) (Interval (Base mon))) nowTime.

(** [func (db *GormDb) GetMonitorsToRun] (monitor.go:163-179).  Each
    iteration of the loop has its own [mon] (Go 1.22), so the result
    holds one entry per selected row. *)
Definition GetMonitorsToRun (drv : option error) (nowTime : time.Time) (d : Db)
  : error + list HttpMonitor :=
  match drv with
  | Some err => inl err
  | None =>
    match Find (filter enabled_and_idle (http_monitors d)) with
    | inl err => inl err
    | inr monitors => inr (filter (interval_elapsed nowTime) monitors)
    end
  end.

(** [func (db *GormDb) AddMonitor]: [Create(monitor)] runs the
    [BeforeSave] hook and, when the hook returns nil, inserts the row. *)
Definition AddMonitor (drv : option error) (mon : HttpMonitor) (d : Db)
  : option error * Db :=
  match BeforeSave mon with
  | (Some err, _) => (Some err, d)
  | (None, saved) =>
    match drv with
    | Some err => (Some err, d)
    | None => (None, set_http_monitors (http_monitors d ++ [saved]) d)
    end
  end.

(** [func (db *GormDb) GetEnabledMonitorsByType] *)
Definition GetEnabledMonitorsByType (drv : option error)
           (monitorType : MonitorType) (d : Db) : error + list HttpMonitor :=
  match monitorType with
  | TypeHTTP =>
    match drv with
    | Some err => inl err
    | None =>
      match Find (filter (fun r => Enabled (Base r)) (http_monitors d)) with
      | inl err => inl err
      | inr monitors => inr monitors
      end
    end
  | TypeUnknown => inl ("unknown type: " ++ MonitorType_String monitorType)
  end.

End Queries.

(** Every stored monitor has its req_timeout between one second and five
    minutes. *)
Definition timeouts_in_range (d : Db) : Prop :=
  Forall (fun r => minHttpClientTimeout <= ReqTimeoutInt r <= maxHttpClientTimeout)
         (http_monitors d).

(** The identifiers of the stored monitors, in table order. *)
Definition ids (d : Db) : list N := map (fun r => ID (Base r)) (http_monitors d).

End db.

(** ** The other text of the store (unnamed/part_001)

    The same two updates without the [RowsAffected] test.  Its
    [GetMonitorsToRun] leaves the whole condition to Postgres
    ([last_monitor_time + make_interval(secs => interval) <= ?], on the
    column that [BeforeSave] fills with nanoseconds); the repository's
    [TestGetMonitorsToRun], [TestLock_Error] and [TestUnlock_Error] pass on
    the text of package [db] above only. *)
Module db_part_001.
Import monitor.

(** [func (db *GormDb) Lock] (part_001:90-99) *)
Definition Lock (drv : option error) (mon : HttpMonitor) (d : db.Db)
  : option error * db.Db :=
  match drv with
  | Some err => (Some err, d)
  | None =>
    (None, db.set_http_monitors
             (db.update_where (db.id_is (ID (GetBase mon)))
                              (db.set_is_monitoring true) (db.http_monitors d)) d)
  end.

(** [func (db *GormDb) Unlock] (part_001:101-113) *)
Definition Unlock (drv : option error) (nowTime : time.Time) (mon : HttpMonitor)
           (d : db.Db) : option error * db.Db :=
  match drv with
  | Some err => (Some err, d)
  | None =>
    (None, db.set_http_monitors
             (db.update_where (db.id_is (ID (GetBase mon)))
                              (fun r => db.set_last_monitor_time nowTime
                                          (db.set_is_monitoring false r))
                              (db.http_monitors d)) d)
  end.

End db_part_001.

(** ** Package [manager] *)
Module manager.
Import monitor.
Local Open Scope list_scope.

Definition maxWorkers : nat := 10.

(** How a call ends: it returns, or it panics and unwinds. *)
Inductive Exit (A : Type) :=
| Return (a : A)
| Panic (v : string).
Arguments Return {A} a.
Arguments Panic {A} v.

(** The calls of one work unit on its collaborators, in order. *)
Inductive Call := CLock | CMonitor | CSaveResult | CUnlock.

(** What the collaborators of one work unit answer: the driver's error
    for each of the three statements, the end of [mon.Monitor(ctx)], and
    the reading of [now()] inside [Unlock]. *)
Record WorkWorld := {
  lock_drv : option error;
  probe : Exit HttpResponse;
  save_drv : option error;
  unlock_drv : option error;
  unlock_now : time.Time;
}.

(** [func (m *Manager) work].  The result is how the call ends, the store
    it leaves, and the calls it made.  The deferred function is
    registered once [Lock] has returned nil, and runs on return and on
    panic alike; its own error is only logged. *)
Definition work (w : WorkWorld) (mon : HttpMonitor) (d : db.Db)
  : Exit (option error) * db.Db * list Call :=
  let (err, d1) := db.Lock (lock_drv w) mon d in
  match err with
  | Some e => (Return (Some e), d1, [CLock])
  | None =>
    let '(exit, d2, calls) :=
      match probe w with
      | Panic v => (Panic v, d1, [CMonitor])
      | Return result =>
        let (err, d2) := db.SaveResult (save_drv w) result d1 in
        match err with
        | Some e => (Return (Some e), d2, [CMonitor; CSaveResult])
        | None => (Return None, d2, [CMonitor; CSaveResult])
        end
      end in
    (* defer func() { unlockErr := m.db.Unlock(ctx, mon) ... }() *)
    let (unlockErr, d3) := db.Unlock (unlock_drv w) (unlock_now w) mon d2 in
    (exit, d3, CLock :: calls ++ [CUnlock])
  end.

(** *** The goroutines of [Run]

    [Run] itself, the goroutine that closes the channel, and the workers
    of [startWorkerPool], interleaved one step at a time.  The context is
    cancelled from outside. *)

(** Where a worker stands in its loop. *)
Inductive WorkerPc :=
| WSelect                       (* blocked in its select *)
| WWorking (mon : HttpMonitor)  (* inside m.work *)
| WExited.                      (* returned; wg.Done() has run *)

(** Where [Run] stands. *)
Inductive RunPc :=
| RSelect                                (* the outer select *)
| RDispatch (rest : list HttpMonitor)    (* the range loop, before its select *)
| RReturned (err : error)                (* return ctx.Err() *)
| RPanicked.                             (* send on closed channel *)

(** Where the closing goroutine stands. *)
Inductive CloserPc :=
| CWaiting      (* blocked in <-ctx.Done() *)
| CClosed.      (* close(m.doWorkCh) has run *)

Record State := {
  ctx_err : option error;     (* ctx.Err(); Some once ctx.Done() is closed *)
  ch_closed : bool;           (* m.doWorkCh *)
  wg : nat;                   (* the counter of m.wg *)
  run_pc : RunPc;
  closer_pc : CloserPc;
  workers : list WorkerPc;
}.

(** [startWorkerPool]: [maxWorkers] times, [m.wg.Add(1)] and a new
    goroutine. *)
Fixpoint startWorkerPool (n : nat) (s : State) : State :=
  match n with
  | O => s
  | S n' =>
    startWorkerPool n'
      {| ctx_err := ctx_err s; ch_closed := ch_closed s; wg := S (wg s);
         run_pc := run_pc s; closer_pc := closer_pc s;
         workers := workers s ++ [WSelect] |}
  end.

(** A fresh [Manager] ([NewManager]) under a live context. *)
Definition NewManager : State :=
  {| ctx_err := None; ch_closed := false; wg := 0; run_pc := RSelect;
     closer_pc := CWaiting; workers := [] |}.

(** The state when [Run] first reaches its loop: the pool is started and
    the closing goroutine is spawned. *)
Definition init : State := startWorkerPool maxWorkers NewManager.

Definition with_run (pc : RunPc) (s : State) : State :=
  {| ctx_err := ctx_err s; ch_closed := ch_closed s; wg := wg s;
     run_pc := pc; closer_pc := closer_pc s; workers := workers s |}.

Definition with_workers (ws : list WorkerPc) (s : State) : State :=
  {| ctx_err := ctx_err s; ch_closed := ch_closed s; wg := wg s;
     run_pc := run_pc s; closer_pc := closer_pc s; workers := ws |}.

(** A worker returns: its deferred [m.wg.Done()] runs. *)
Definition worker_exit (ws : list WorkerPc) (s : State) : State :=
  {| ctx_err := ctx_err s; ch_closed := ch_closed s; wg := pred (wg s);
     run_pc := run_pc s; closer_pc := closer_pc s; workers := ws |}.

Inductive step : State -> State -> Prop :=
(* the caller cancels the context *)
| step_cancel s e :
    ctx_err s = None ->
    step s {| ctx_err := Some e; ch_closed := ch_closed s; wg := wg s;
              run_pc := run_pc s; closer_pc := closer_pc s;
              workers := workers s |}
(* go func() { <-ctx.Done(); close(m.doWorkCh) }() *)
| step_close s e :
    ctx_err s = Some e -> closer_pc s = CWaiting ->
    step s {| ctx_err := ctx_err s; ch_closed := true; wg := wg s;
              run_pc := run_pc s; closer_pc := CClosed;
              workers := workers s |}
(* Run, outer select: case <-ctx.Done(): return ctx.Err() *)
| step_run_done s e :
    run_pc s = RSelect -> ctx_err s = Some e ->
    step s (with_run (RReturned e) s)
(* Run, outer select: case <-ticker.C, GetMonitorsToRun fails: continue *)
| step_run_tick_err s :
    run_pc s = RSelect ->
    step s (with_run RSelect s)
(* Run, outer select: case <-ticker.C, GetMonitorsToRun answers *)
| step_run_tick s availableMonitors :
    run_pc s = RSelect ->
    step s (with_run (RDispatch availableMonitors) s)
(* Run, range loop exhausted: back to the outer select *)
| step_run_next s :
    run_pc s = RDispatch [] ->
    step s (with_run RSelect s)
(* Run, inner select: case m.doWorkCh <- availableMonitor, received by a
   worker blocked in its select (the channel is unbuffered) *)
| step_run_send s mon rest ws1 ws2 :
    run_pc s = RDispatch (mon :: rest) -> ch_closed s = false ->
    workers s = ws1 ++ WSelect :: ws2 ->
    step s (with_run (RDispatch rest) (with_workers (ws1 ++ WWorking mon :: ws2) s))
(* Run, inner select: the send case is chosen on a closed channel *)
| step_run_send_closed s mon rest :
    run_pc s = RDispatch (mon :: rest) -> ch_closed s = true ->
    step s (with_run RPanicked s)
(* Run, inner select: case <-ctx.Done(): return ctx.Err() *)
| step_run_dispatch_done s mon rest e :
    run_pc s = RDispatch (mon :: rest) -> ctx_err s = Some e ->
    step s (with_run (RReturned e) s)
(* worker select: case <-ctx.Done(): return *)
| step_worker_done s e ws1 ws2 :
    ctx_err s = Some e -> workers s = ws1 ++ WSelect :: ws2 ->
    step s (worker_exit (ws1 ++ WExited :: ws2) s)
(* worker select: case mon, ok := <-m.doWorkCh with !ok: return *)
| step_worker_closed s ws1 ws2 :
    ch_closed s = true -> workers s = ws1 ++ WSelect :: ws2 ->
    step s (worker_exit (ws1 ++ WExited :: ws2) s)
(* worker: m.work returns (its error is logged); back to the select *)
| step_worker_worked s mon ws1 ws2 :
    workers s = ws1 ++ WWorking mon :: ws2 ->
    step s (with_workers (ws1 ++ WSelect :: ws2) s).

(** Executions: zero or more steps. *)
Inductive steps : State -> State -> Prop :=
| steps_refl s : steps s s
| steps_step s1 s2 s3 : step s1 s2 -> steps s2 s3 -> steps s1 s3.

Definition reachable (s : State) : Prop := steps init s.

(** A worker that has not returned yet. *)
Definition alive (w : WorkerPc) : bool :=
  match w with WExited => false | _ => true end.

Definition alive_count (ws : list WorkerPc) : nat :=
  List.length (filter alive ws).

(** A worker inside [m.work]. *)
Definition working (w : WorkerPc) : bool :=
  match w with WWorking _ => true | _ => false end.

Definition working_count (ws : list WorkerPc) : nat :=
  List.length (filter working ws).

(** [Run] stands at one of its two selects. *)
Definition at_select (s : State) : Prop :=
  run_pc s = RSelect \/ exists mon rest, run_pc s = RDispatch (mon :: rest).

(** What every step of the pool keeps true. *)
Record Inv (s : State) : Prop := {
  inv_returned : forall e, run_pc s = RReturned e -> ctx_err s = Some e;
  inv_wg : wg s = alive_count (workers s);
  inv_closed : ch_closed s = true -> ctx_err s <> None;
  inv_closer : closer_pc s = CClosed -> ch_closed s = true;
}.

(** Shutdown is complete: the channel is closed, every worker has
    exited, and the wait-group has come back to zero. *)
Definition shutdown_complete (s : State) : Prop :=
  ch_closed s = true /\ Forall (fun w => w = WExited) (workers s) /\ wg s = O.

End manager.

(** ** Tactics for the paths of a probe *)
Module probe_tactics.
Import monitor.

(** One case split per answer of the world and per flag, in the order
    the probe consults them. *)
Ltac probe_case :=
  match goal with
  | |- context [NewRequest_err ?w ?a ?b] => destruct (NewRequest_err w a b) eqn:?
  | |- context [ShouldCheckSSL ?hm || ShouldWarnOnSSLExpiry ?hm] =>
      destruct (ShouldCheckSSL hm) eqn:?; destruct (ShouldWarnOnSSLExpiry hm) eqn:?
  | |- context [url_Parse ?w ?a] => destruct (url_Parse w a) eqn:?
  | |- context [tls_Dial ?w ?a] => destruct (tls_Dial w a) eqn:?
  | |- context [client_Do ?w ?a ?b] => destruct (client_Do w a b) eqn:?
  | |- context [lo_Contains ?a ?b] => destruct (lo_Contains a b) eqn:?
  | |- context [ShouldCheckResponse ?hm] => destruct (ShouldCheckResponse hm) eqn:?
  | |- context [ReadAll ?r] => destruct (ReadAll r) eqn:?
  | |- context [String.eqb ?a (ExpectedResponse ?hm)] =>
      destruct (String.eqb a (ExpectedResponse hm)) eqn:?
  | |- context [ShouldWarnOnSSLExpiry ?hm] => destruct (ShouldWarnOnSSLExpiry hm) eqn:?
  | |- context [time.Sub ?a ?b <? ?c] => destruct (time.Sub a b <? c) eqn:?
  end.

Ltac probe_cases :=
  unfold run, Monitor, bind, ret, emit, now, checkSSL; cbn;
  repeat (probe_case; cbn).

(** Name the response and the trace of the probe, set the property to
    prove aside, and split along the paths of the probe. *)
Ltac probe_paths r tr :=
  match goal with
  | |- context [run (Monitor ?w ?hm)] =>
      let Hrun := fresh "Hrun" in
      let Q := fresh "Q" in
      destruct (run (Monitor w hm)) as [r tr] eqn:Hrun;
      cbn [fst snd]; pattern r, tr;
      match goal with
      | |- ?P r tr => set (Q := P)
      end;
      revert Hrun; probe_cases;
      intros Hrun; injection Hrun as <- <-; subst Q; cbn beta
  end.

(** Find the request in a concrete trace. *)
Ltac find_sent H :=
  unfold sent in H; cbn in H;
  repeat (destruct H as [H|H]; [try discriminate H|]);
  try contradiction;
  try (injection H as <- <-).

(** Split a concrete trace before its last events. *)
Ltac trace_prefix :=
  first [ exists []; reflexivity
        | eexists [_]; reflexivity
        | eexists [_; _]; reflexivity
        | eexists [_; _; _]; reflexivity
        | eexists [_; _; _; _]; reflexivity
        | eexists [_; _; _; _; _]; reflexivity
        | eexists [_; _; _; _; _; _]; reflexivity
        | eexists [_; _; _; _; _; _; _]; reflexivity ].

(** Two answers to the same request are the same answer. *)
Ltac same_response :=
  repeat match goal with
         | H1 : client_Do ?w ?a ?b = inr ?x, H2 : client_Do ?w ?a ?b = inr ?y |- _ =>
             assert (x = y) by congruence; subst x; clear H2
         | H : @inr error Response ?x = inr ?y |- _ =>
             injection H as H; subst x
         end.

End probe_tactics.

(** ** Fixtures: the monitors and answers of the repository's tests *)
Module fixtures.
Import monitor.

(** A stand-in for [encoding/json]: it marshals an int slice for real and
    reads back the two documents it is asked about; headers are beyond
    it. *)
Definition marshal_int (z : Z) : string :=
  match z with
  | Zneg p => "-" ++ fmt_d (Npos p)
  | _ => fmt_d (Z.to_N z)
  end.

Fixpoint marshal_ints_tail (l : list Z) : string :=
  match l with
  | [] => "]"
  | z :: rest => "," ++ marshal_int z ++ marshal_ints_tail rest
  end.

Definition marshal_ints (l : list Z) : string :=
  match l with
  | [] => "[]"
  | z :: rest => "[" ++ marshal_int z ++ marshal_ints_tail rest
  end.

#[export] Instance test_json : Json := {|
  Marshal_ints := fun l => inr (marshal_ints l);
  Marshal_headers := fun h => inr "{}";
  Unmarshal_ints := fun s =>
    if String.eqb s "[200, 301]" then inr (Some [200; 301])
    else if String.eqb s "[200,301]" then inr (Some [200; 301])
    else inl "invalid character";
  Unmarshal_headers := fun s =>
    if String.eqb s "{}" then inr (Some [])
    else inl "invalid character";
|}.

Definition base0 : BaseMonitor :=
  {| ID := 1; Type_ := TypeHTTP; IntervalInt := 0; Interval := time.Minute;
     Enabled := true; LastMonitorTime := time.zero; IsMonitoring := false;
     CreatedAt := time.zero; UpdatedAt := time.zero |}.

(** The monitor of [TestHttpMonitor_Monitor_Success]. *)
Definition hm_test : HttpMonitor :=
  {| Base := base0; Address := "http://127.0.0.1:8080";
     ValidStatusCodes := Some [200]; ValidStatusCodesJSON := EmptyString;
     ShouldWarnOnSSLExpiry := false; ShouldCheckSSL := false;
     ExpectedResponse := "Expected response"; ShouldCheckResponse := true;
     ReqBody := EmptyString; ReqContentType := EmptyString;
     ReqHeaders := None; ReqHeadersJSON := EmptyString;
     RequestMethod := "GET";
     ReqTimeoutInt := 0; ReqTimeout := 5 * time.Second |}.

(** A clock that starts in the year 2026 and advances five milliseconds
    per reading. *)
Definition clock_2026 (n : nat) : time.Time :=
  63900000000000000000 + Z.of_nat n * (5 * time.Millisecond).

Definition answer (code : Z) (body : string) : Response :=
  {| StatusCode := code; ReadAll := inr body; Close := None |}.

(** A plain-HTTP test server, as [httptest.NewServer] starts one: nothing
    speaks TLS on its port. *)
Definition test_server (resp : Response) : World :=
  {| clock := clock_2026;
     NewRequest_err := fun _ _ => None;
     CanonicalHeaderKey := fun k => k;
     url_Parse := fun _ => inr "127.0.0.1:8080";
     tls_Dial := fun _ => inl "tls: first record does not look like a TLS handshake";
     client_Do := fun _ _ => inr resp |}.

(** The request cannot be built. *)
Definition unbuildable : World :=
  {| clock := clock_2026;
     NewRequest_err := fun _ _ => Some "net/http: invalid method";
     CanonicalHeaderKey := fun k => k;
     url_Parse := fun _ => inr "127.0.0.1:8080";
     tls_Dial := fun _ => inl "refused";
     client_Do := fun _ _ => inl "refused" |}.

(** Nothing listens at the address. *)
Definition refused : World :=
  {| clock := clock_2026;
     NewRequest_err := fun _ _ => None;
     CanonicalHeaderKey := fun k => k;
     url_Parse := fun _ => inr "127.0.0.1:8080";
     tls_Dial := fun _ => inl "dial tcp 127.0.0.1:8080: connect: connection refused";
     client_Do := fun _ _ => inl "dial tcp 127.0.0.1:8080: connect: connection refused" |}.

(** An HTTPS server whose certificate expires [d] after the start of the
    clock. *)
Definition tls_server (d : time.Duration) (resp : Response) : World :=
  {| clock := clock_2026;
     NewRequest_err := fun _ _ => None;
     CanonicalHeaderKey := fun k => k;
     url_Parse := fun _ => inr "example.com";
     tls_Dial := fun _ => inr (clock_2026 0 + d);
     client_Do := fun _ _ => inr resp |}.

Definition with_flags (warnOnExpiry checkSSL checkResponse : bool)
           (hm : HttpMonitor) : HttpMonitor :=
  {| Base := Base hm; Address := Address hm;
     ValidStatusCodes := ValidStatusCodes hm;
     ValidStatusCodesJSON := ValidStatusCodesJSON hm;
     ShouldWarnOnSSLExpiry := warnOnExpiry;
     ShouldCheckSSL := checkSSL;
     ExpectedResponse := ExpectedResponse hm;
     ShouldCheckResponse := checkResponse;
     ReqBody := ReqBody hm; ReqContentType := ReqContentType hm;
     ReqHeaders := ReqHeaders hm; ReqHeadersJSON := ReqHeadersJSON hm;
     RequestMethod := RequestMethod hm;
     ReqTimeoutInt := ReqTimeoutInt hm; ReqTimeout := ReqTimeout hm |}.

Definition with_expected (body : string) (hm : HttpMonitor) : HttpMonitor :=
  {| Base := Base hm; Address := Address hm;
     ValidStatusCodes := ValidStatusCodes hm;
     ValidStatusCodesJSON := ValidStatusCodesJSON hm;
     ShouldWarnOnSSLExpiry := ShouldWarnOnSSLExpiry hm;
     ShouldCheckSSL := ShouldCheckSSL hm;
     ExpectedResponse := body;
     ShouldCheckResponse := ShouldCheckResponse hm;
     ReqBody := ReqBody hm; ReqContentType := ReqContentType hm;
     ReqHeaders := ReqHeaders hm; ReqHeadersJSON := ReqHeadersJSON hm;
     RequestMethod := RequestMethod hm;
     ReqTimeoutInt := ReqTimeoutInt hm; ReqTimeout := ReqTimeout hm |}.

(** The request that [hm_test] sends. *)
Definition req_test : Request :=
  {| Method := "GET"; URL := "http://127.0.0.1:8080"; Body := None; Header := [] |}.

Definition with_base (b : BaseMonitor) (hm : HttpMonitor) : HttpMonitor :=
  set_Base b hm.

(** A stored monitor as [TestLockUnlock] adds it, claimed or not, last run
    at [last], with a one-minute interval. *)
Definition stored (inFlight : bool) (last : time.Time) : HttpMonitor :=
  with_base {| ID := 1; Type_ := TypeHTTP; IntervalInt := time.Minute;
               Interval := time.Minute; Enabled := true;
               LastMonitorTime := last; IsMonitoring := inFlight;
               CreatedAt := time.zero; UpdatedAt := time.zero |} hm_test.

Definition store (rows : list HttpMonitor) : db.Db :=
  {| db.http_monitors := rows; db.http_responses := [] |}.

(** The collaborators of one work unit whose statements all go through
    except, possibly, the insert of the result. *)
Definition work_world (p : manager.Exit HttpResponse) (save : option error)
  : manager.WorkWorld :=
  {| manager.lock_drv := None; manager.probe := p; manager.save_drv := save;
     manager.unlock_drv := None; manager.unlock_now := clock_2026 7 |}.

(** The stored monitor after the release of [work_world]. *)
Definition released : list HttpMonitor :=
  [db.set_last_monitor_time (clock_2026 7) (stored false time.zero)].

(** The pool after a tick found the stored monitor due, the caller
    cancelled the context and the closing goroutine closed the channel,
    with [Run] about to hand the monitor over. *)
Definition closed_while_dispatching : manager.State :=
  {| manager.ctx_err := Some "context canceled"; manager.ch_closed := true;
     manager.wg := 10;
     manager.run_pc := manager.RDispatch [stored false time.zero];
     manager.closer_pc := manager.CClosed;
     manager.workers := repeat manager.WSelect 10 |}.

(** The pool right after the caller cancelled the context. *)
Definition cancelled : manager.State :=
  {| manager.ctx_err := Some "context canceled"; manager.ch_closed := false;
     manager.wg := 10; manager.run_pc := manager.RSelect;
     manager.closer_pc := manager.CWaiting;
     manager.workers := repeat manager.WSelect 10 |}.

Definition with_timeout (t : time.Duration) (hm : HttpMonitor) : HttpMonitor :=
  set_ReqTimeout t hm.

Definition with_stored_timeout (t : Z) (hm : HttpMonitor) : HttpMonitor :=
  set_ReqTimeoutInt t hm.

End fixtures.
(** * Properties *)

(** ** The timeout clamp of the hooks *)
Module hooks_spec.
Import monitor.

Lemma BeforeSave_timeout_range (t : time.Duration) :
  1 * time.Second <= BeforeSave_timeout t <= 300 * time.Second.
Proof.
  unfold BeforeSave_timeout, defaultHttpClientTimeout, maxHttpClientTimeout,
    minHttpClientTimeout, time.Minute, time.Second.
  destruct (Z.eqb_spec t 0); [lia|].
  destruct (Z.gtb_spec t (5 * (60 * 1000000000))); [lia|].
  destruct (Z.ltb_spec t (1 * 1000000000)); lia.
Qed.

Lemma BeforeSave_timeout_unset :
  BeforeSave_timeout 0 = 30 * time.Second.
Proof. reflexivity. Qed.

Lemma BeforeSave_timeout_keeps (t : time.Duration) :
  1 * time.Second <= t <= 300 * time.Second -> BeforeSave_timeout t = t.
Proof.
  unfold BeforeSave_timeout, defaultHttpClientTimeout, maxHttpClientTimeout,
    minHttpClientTimeout, time.Minute, time.Second.
  intros Hr.
  destruct (Z.eqb_spec t 0); [lia|].
  destruct (Z.gtb_spec t (5 * (60 * 1000000000))); [lia|].
  destruct (Z.ltb_spec t (1 * 1000000000)); lia.
Qed.

Lemma AfterFind_timeout_range (t : time.Duration) :
  1 * time.Second <= AfterFind_timeout t <= 300 * time.Second.
Proof.
  unfold AfterFind_timeout, maxHttpClientTimeout, minHttpClientTimeout,
    time.Minute, time.Second.
  destruct (Z.gtb_spec t (5 * (60 * 1000000000))); [lia|].
  destruct (Z.ltb_spec t (1 * 1000000000)); lia.
Qed.

Section WithJson.
Context `{Json}.

(** What [BeforeSave] leaves in the timeout fields when it returns nil. *)
Lemma BeforeSave_ok_timeout (hm saved : HttpMonitor) :
  BeforeSave hm = (None, saved) ->
  ReqTimeoutInt saved = BeforeSave_timeout (ReqTimeout hm) /\
  ReqTimeout saved = BeforeSave_timeout (ReqTimeout hm).
Proof.
  unfold BeforeSave, BaseMonitor_BeforeSave. cbn.
  destruct (ValidStatusCodes hm) as [codes|];
    [destruct (Marshal_ints codes) as [e|j]; [discriminate|]|];
    cbn;
    (destruct (ReqHeaders hm) as [hs|];
     [destruct (Marshal_headers hs) as [e'|j']; [discriminate|]|]);
    cbn; intros Heq; injection Heq as <-; cbn; auto.
Qed.

(** [BeforeSave] fails only when the codec does. *)
Lemma BeforeSave_total (hm : HttpMonitor) :
  (forall codes, ValidStatusCodes hm = Some codes ->
                 exists j, Marshal_ints codes = inr j) ->
  (forall hs, ReqHeaders hm = Some hs ->
              exists j, Marshal_headers hs = inr j) ->
  exists saved, BeforeSave hm = (None, saved).
Proof.
  intros Hc Hh. unfold BeforeSave, BaseMonitor_BeforeSave. cbn.
  destruct (ValidStatusCodes hm) as [codes|].
  - destruct (Hc codes eq_refl) as [j ->]. cbn.
    destruct (ReqHeaders hm) as [hs|].
    + destruct (Hh hs eq_refl) as [j' ->]. eexists; reflexivity.
    + eexists; reflexivity.
  - cbn. destruct (ReqHeaders hm) as [hs|].
    + destruct (Hh hs eq_refl) as [j' ->]. eexists; reflexivity.
    + eexists; reflexivity.
Qed.

Lemma AfterFind_ok_timeout (row loaded : HttpMonitor) :
  AfterFind row = (None, loaded) ->
  ReqTimeout loaded = AfterFind_timeout (ReqTimeoutInt row).
Proof.
  unfold AfterFind, BaseMonitor_AfterFind. cbn.
  destruct (String.eqb (ValidStatusCodesJSON row) EmptyString);
    [|destruct (Unmarshal_ints (ValidStatusCodesJSON row)) as [e|codes];
      [discriminate|]];
    cbn;
    (destruct (String.eqb (ReqHeadersJSON row) EmptyString);
     [|destruct (Unmarshal_headers (ReqHeadersJSON row)) as [e'|hs];
       [discriminate|]]);
    cbn; intros Heq; injection Heq as <-; cbn; auto.
Qed.

(** C5: whenever [BeforeSave] lets a monitor through, the timeout it
    persists (the column req_timeout) lies between 1 second and 300
    seconds, an unset (zero) timeout has become 30 seconds, and a timeout
    already in range is kept; the hook goes through whenever the codec
    does.  Whenever [AfterFind] lets a row through, the timeout it
    reconstructs lies in the same range. *)
Theorem timeout_clamped_on_save_and_load (hm row : HttpMonitor) :
  (forall saved, BeforeSave hm = (None, saved) ->
     1 * time.Second <= ReqTimeoutInt saved <= 300 * time.Second /\
     ReqTimeout saved = ReqTimeoutInt saved /\
     (ReqTimeout hm = 0 -> ReqTimeoutInt saved = 30 * time.Second) /\
     (1 * time.Second <= ReqTimeout hm <= 300 * time.Second ->
      ReqTimeoutInt saved = ReqTimeout hm)) /\
  ((forall codes, ValidStatusCodes hm = Some codes ->
                  exists j, Marshal_ints codes = inr j) ->
   (forall hs, ReqHeaders hm = Some hs ->
               exists j, Marshal_headers hs = inr j) ->
   exists saved, BeforeSave hm = (None, saved)) /\
  (forall loaded, AfterFind row = (None, loaded) ->
     1 * time.Second <= ReqTimeout loaded <= 300 * time.Second).
Proof.
  split; [|split].
  - intros saved Hs. destruct (BeforeSave_ok_timeout _ _ Hs) as [Hi Ht].
    rewrite Hi, Ht. split; [apply BeforeSave_timeout_range|].
    split; [reflexivity|]. split.
    + intros ->. apply BeforeSave_timeout_unset.
    + apply BeforeSave_timeout_keeps.
  - apply BeforeSave_total.
  - intros loaded Hl. rewrite (AfterFind_ok_timeout _ _ Hl).
    apply AfterFind_timeout_range.
Qed.

End WithJson.

Import fixtures.

(** [TestHttpMonitor_BeforeSave_TimeoutValidation]: ten minutes are
    stored as five. *)
Example BeforeSave_ten_minutes :
  ReqTimeoutInt (snd (BeforeSave (with_timeout (10 * time.Minute) hm_test)))
  = maxHttpClientTimeout.
Proof. reflexivity. Qed.

(** [TestHttpMonitor_AfterFind_TimeoutValidation] *)
Example AfterFind_ten_minutes :
  ReqTimeout (snd (AfterFind (with_stored_timeout (10 * time.Minute) hm_test)))
  = maxHttpClientTimeout.
Proof. reflexivity. Qed.

(** A negative timeout is raised to one second on save; a stored zero is
    raised to one second on load. *)
Example BeforeSave_negative :
  ReqTimeoutInt (snd (BeforeSave (with_timeout (-5) hm_test))) = time.Second.
Proof. reflexivity. Qed.

Example AfterFind_zero :
  ReqTimeout (snd (AfterFind (with_stored_timeout 0 hm_test))) = time.Second.
Proof. reflexivity. Qed.

Lemma timeout_clamped_on_save_and_load_witness :
  ReqTimeoutInt (snd (BeforeSave (with_timeout 0 hm_test))) = 30 * time.Second /\
  1 * time.Second
  <= ReqTimeout (snd (AfterFind (with_stored_timeout (10 * time.Minute) hm_test)))
  <= 300 * time.Second.
Proof.
  destruct (timeout_clamped_on_save_and_load
              (with_timeout 0 hm_test)
              (with_stored_timeout (10 * time.Minute) hm_test))
    as [Hsave [_ Hload]].
  split.
  - apply (Hsave _ eq_refl). reflexivity.
  - apply (Hload _ eq_refl).
Defined.

End hooks_spec.

(** ** The HTTP probe *)
Module probe_spec.
Import monitor probe_tactics.

#[local] Arguments lo_Contains : simpl never.
#[local] Arguments time.Sub : simpl never.
#[local] Arguments time.Milliseconds : simpl never.
#[local] Arguments strings_Contains : simpl never.
#[local] Arguments String.eqb : simpl never.
#[local] Arguments String.append : simpl never.
#[local] Arguments fold_left : simpl never.
#[local] Arguments Header_Set : simpl never.
#[local] Arguments Z.ltb : simpl never.
#[local] Arguments Z.mul : simpl never.
#[local] Arguments Nat.ltb : simpl never.
#[local] Arguments String.length : simpl never.

Lemma lo_Contains_In (codes : option (list Z)) (c : Z) :
  lo_Contains codes c = true <->
  exists l, codes = Some l /\ In c l.
Proof.
  unfold lo_Contains. destruct codes as [l|].
  - rewrite existsb_exists. split.
    + intros [x [Hin Heq]]. apply Z.eqb_eq in Heq. subst x. eauto.
    + intros [l' [Heq Hin]]. injection Heq as <-. exists c.
      split; [assumption | apply Z.eqb_refl].
  - split; [discriminate | intros [l [Heq _]]; discriminate].
Qed.

(** C10: whatever the monitor and whatever the world answers, the
    response that [Monitor] returns has [DataValid] false; this includes
    the probes whose body was checked and found equal to the expected
    one. *)
Theorem DataValid_never_set (w : World) (hm : HttpMonitor) :
  DataValid (fst (run (Monitor w hm))) = false.
Proof. probe_paths r tr; reflexivity. Qed.

(** C9: when the main request ends in a transport error, [Monitor]
    returns a response (it has no error result of its own) whose outcome
    is Down and whose message is the text of that error; the request is
    the last thing the probe did, and neither the latency nor the
    status-code flag was set. *)
Theorem transport_error_is_Down (w : World) (hm : HttpMonitor)
        (t : time.Duration) (req : Request) (err : error) :
  sent (snd (run (Monitor w hm))) t req ->
  client_Do w t req = inl err ->
  Result_ (BaseResp (fst (run (Monitor w hm)))) = ResultDown /\
  ErrorMsg (BaseResp (fst (run (Monitor w hm)))) = err /\
  StatusCodeValid (fst (run (Monitor w hm))) = false /\
  Latency (fst (run (Monitor w hm))) = 0 /\
  exists before, snd (run (Monitor w hm)) = (before ++ [EDo t req])%list.
Proof.
  probe_paths r tr; intros Hsent Hdo; find_sent Hsent; try congruence.
  all: cbn; repeat split; try congruence; trace_prefix.
Qed.

(** C7: when the main request completes, the status-code flag of the
    response is the membership of the received code in the accepted codes
    of the monitor, so a nil or empty list accepts no code; when the code
    is not accepted the outcome is Down and the probe ends there: the last
    thing it did is read the clock for the latency, and the body was never
    read. *)
Theorem status_code_validation (w : World) (hm : HttpMonitor)
        (t : time.Duration) (req : Request) (resp : Response) :
  sent (snd (run (Monitor w hm))) t req ->
  client_Do w t req = inr resp ->
  (StatusCodeValid (fst (run (Monitor w hm))) = true <->
   exists codes, ValidStatusCodes hm = Some codes /\ In (StatusCode resp) codes) /\
  (ValidStatusCodes hm = None \/ ValidStatusCodes hm = Some [] ->
   StatusCodeValid (fst (run (Monitor w hm))) = false) /\
  (StatusCodeValid (fst (run (Monitor w hm))) = false ->
   Result_ (BaseResp (fst (run (Monitor w hm)))) = ResultDown /\
   ~ In EReadAll (snd (run (Monitor w hm))) /\
   exists before, snd (run (Monitor w hm)) = (before ++ [EDo t req; ENow])%list).
Proof.
  probe_paths r tr; intros Hsent Hdo; find_sent Hsent; try congruence.
  all: same_response; cbn.
  all: match goal with
       | Hc : lo_Contains _ _ = _ |- _ =>
           split; [rewrite <- lo_Contains_In, Hc; intuition congruence |];
           split; [intros [Hn | Hn]; rewrite Hn in Hc; cbv in Hc; congruence |]
       end.
  all: try (intros Hf; discriminate Hf).
  all: intros _; repeat split; try trace_prefix.
  all: cbn; intuition discriminate.
Qed.

(** C8: when the body is to be checked and the status code was accepted,
    the probe reads the body; a body equal to the expected string, character
    for character, lets the probe pass, and any other body makes the
    outcome Down with the message "response is not as expected: " followed
    by the body as received. *)
Theorem body_validation (w : World) (hm : HttpMonitor)
        (t : time.Duration) (req : Request) (resp : Response) :
  sent (snd (run (Monitor w hm))) t req ->
  client_Do w t req = inr resp ->
  ShouldCheckResponse hm = true ->
  lo_Contains (ValidStatusCodes hm) (StatusCode resp) = true ->
  In EReadAll (snd (run (Monitor w hm))) /\
  forall gotResp, ReadAll resp = inr gotResp ->
    (gotResp = ExpectedResponse hm ->
     Result_ (BaseResp (fst (run (Monitor w hm)))) <> ResultDown /\
     ErrorMsg (BaseResp (fst (run (Monitor w hm)))) = EmptyString) /\
    (gotResp <> ExpectedResponse hm ->
     Result_ (BaseResp (fst (run (Monitor w hm)))) = ResultDown /\
     ErrorMsg (BaseResp (fst (run (Monitor w hm))))
     = "response is not as expected: " ++ gotResp).
Proof.
  probe_paths r tr; intros Hsent Hdo Hcheck Hcode; find_sent Hsent;
    try congruence.
  all: same_response; try congruence; cbn.
  all: split; [intuition congruence |].
  all: intros gotResp Hread; try congruence.
  all: match goal with
       | H : ReadAll ?r = inr ?a |- _ =>
           assert (a = gotResp) by congruence; subst a
       end.
  all: repeat match goal with
              | He : String.eqb _ _ = true |- _ => apply String.eqb_eq in He
              | He : String.eqb _ _ = false |- _ => apply String.eqb_neq in He
              end.
  all: split; intros Hcmp; try congruence.
  all: split; [discriminate || reflexivity | reflexivity].
Qed.

(** *** The outcome of a probe that passed *)

(** The sub-result of a failed certificate check carries the zero time. *)
Lemma failed_SSL_check_has_zero_expiry (w : World) (hm : HttpMonitor) :
  Valid (fst (run (checkSSL w hm))) = false ->
  Expiry (fst (run (checkSSL w hm))) = time.zero.
Proof.
  unfold run, checkSSL, bind, ret, emit; cbn.
  destruct (url_Parse w (Address hm)); cbn; [reflexivity|].
  destruct (tls_Dial w _); cbn; [reflexivity | discriminate].
Qed.

(** The zero time lies more than 30 days before any instant of our era. *)
Lemma zero_expiry_is_within_30_days (nowTime : time.Time) :
  0 <= nowTime ->
  (time.Sub time.zero nowTime <? 30 * 24 * time.Hour) = true.
Proof.
  intros Hn. apply Z.ltb_lt. unfold time.Sub, time.zero, time.minDuration,
    time.maxDuration, time.Hour, time.Minute, time.Second.
  destruct (Z.ltb_spec (0 - nowTime) (- 2 ^ 63)); [lia|].
  destruct (Z.ltb_spec (2 ^ 63 - 1) (0 - nowTime)); lia.
Qed.

(** What the code decides: the outcome is Warn exactly when the warning
    flag is on, the other checks passed, and the recorded expiry minus
    the fourth reading of the clock is under 30 days.  Whether the
    certificate check succeeded plays no part. *)
Lemma Warn_iff_expiry_window (w : World) (hm : HttpMonitor) :
  Result_ (BaseResp (fst (run (Monitor w hm)))) = ResultWarn <->
  ShouldWarnOnSSLExpiry hm = true /\
  (exists t req resp, sent (snd (run (Monitor w hm))) t req /\
                      client_Do w t req = inr resp /\ checks_passed hm resp) /\
  (time.Sub (Expiry (SslResp (fst (run (Monitor w hm))))) (clock w 3)
   <? 30 * 24 * time.Hour) = true.
Proof.
  unfold checks_passed.
  probe_paths r tr; cbn; split.
  all: try (intros Hres; discriminate Hres).
  all: try (intros [Hw _]; congruence).
  (* the outcome is not Warn: the premises contradict the path *)
  all: try solve [ intros [Hw [[t' [req' [resp' [Hs [Hd [Hc Hb]]]]]] Hx]];
                   try reflexivity; find_sent Hs; try congruence;
                   same_response; try congruence;
                   try (specialize (Hb eq_refl)); try congruence;
                   match goal with
                   | He : String.eqb _ _ = false |- _ =>
                       apply String.eqb_neq in He; congruence
                   end ].
  (* the outcome is Warn: the path provides the premises *)
  all: intros _; split; [reflexivity|]; split; [|assumption].
  all: do 3 eexists; split; [unfold sent; cbn; intuition eauto|].
  all: split; [eassumption|]; split; [assumption|].
  all: intros Hc; try discriminate Hc.
  all: match goal with
       | He : String.eqb _ _ = true |- _ =>
           apply String.eqb_eq in He; congruence
       end.
Qed.

(** A probe that passed every check ends Up unless it ends Warn. *)
Lemma Up_iff_passed_without_warning (w : World) (hm : HttpMonitor) :
  Result_ (BaseResp (fst (run (Monitor w hm)))) = ResultUp <->
  (exists t req resp, sent (snd (run (Monitor w hm))) t req /\
                      client_Do w t req = inr resp /\ checks_passed hm resp) /\
  (ShouldWarnOnSSLExpiry hm = false \/
   (time.Sub (Expiry (SslResp (fst (run (Monitor w hm))))) (clock w 3)
    <? 30 * 24 * time.Hour) = false).
Proof.
  unfold checks_passed.
  probe_paths r tr; cbn; split.
  all: try (intros Hres; discriminate Hres).
  all: try solve [ intros [[t' [req' [resp' [Hs [Hd [Hc Hb]]]]]] Hx];
                   try reflexivity; find_sent Hs; try congruence;
                   same_response; try congruence;
                   try (destruct Hx as [Hx | Hx]; congruence);
                   try (specialize (Hb eq_refl)); try congruence;
                   match goal with
                   | He : String.eqb _ _ = false |- _ =>
                       apply String.eqb_neq in He; congruence
                   end ].
  all: intros _; split;
    [| first [left; reflexivity | left; assumption | right; assumption]].
  all: do 3 eexists; split; [unfold sent; cbn; intuition eauto|].
  all: split; [eassumption|]; split; [assumption|].
  all: intros Hc; try congruence.
  all: match goal with
       | He : String.eqb _ _ = true |- _ =>
           apply String.eqb_eq in He; congruence
       end.
Qed.

(** The certificate sub-result of a probe is what [checkSSL] found, or
    the zero value when neither flag asked for it; so an invalid
    sub-result always carries the zero expiry. *)
Lemma invalid_certificate_has_zero_expiry (w : World) (hm : HttpMonitor) :
  Valid (SslResp (fst (run (Monitor w hm)))) = false ->
  Expiry (SslResp (fst (run (Monitor w hm)))) = time.zero.
Proof. probe_paths r tr; cbn; intros Hv; reflexivity || discriminate Hv. Qed.

(** With the warning flag on, a probe that passed its other checks and
    whose certificate check failed ends Warn, at any instant of our era. *)
Lemma failed_SSL_check_warns (w : World) (hm : HttpMonitor)
      (t : time.Duration) (req : Request) (resp : Response) :
  ShouldWarnOnSSLExpiry hm = true ->
  sent (snd (run (Monitor w hm))) t req ->
  client_Do w t req = inr resp ->
  checks_passed hm resp ->
  Valid (SslResp (fst (run (Monitor w hm)))) = false ->
  0 <= clock w 3 ->
  Result_ (BaseResp (fst (run (Monitor w hm)))) = ResultWarn.
Proof.
  intros Hflag Hsent Hdo Hpass Hvalid Hclock.
  apply Warn_iff_expiry_window. split; [assumption|]. split.
  - exists t, req, resp. auto.
  - rewrite (invalid_certificate_has_zero_expiry _ _ Hvalid).
    apply zero_expiry_is_within_30_days. assumption.
Qed.

Import fixtures.

(** C2, at the failing input: a monitor with the expiry warning on,
    probed over plain HTTP.  Nothing answers the TLS dial, so the
    certificate check fails and records no expiry; the request itself gets
    its 200 and the expected body; the outcome is Warn. *)
Theorem Monitor_warns_after_failed_SSL_check :
  let hm := with_flags true false true hm_test in
  let w := test_server (answer 200 "Expected response") in
  ShouldWarnOnSSLExpiry hm = true /\
  Valid (SslResp (fst (run (Monitor w hm)))) = false /\
  StatusCodeValid (fst (run (Monitor w hm))) = true /\
  ErrorMsg (BaseResp (fst (run (Monitor w hm)))) = EmptyString /\
  Result_ (BaseResp (fst (run (Monitor w hm)))) = ResultWarn.
Proof. vm_compute. repeat split. Qed.

(** Scenario 5 of the specification: a valid certificate that expires in
    ten days gives Warn; one that expires in ninety days gives Up. *)
Example expiring_certificate_warns :
  Result_ (BaseResp (fst (run (Monitor
    (tls_server (10 * 24 * time.Hour) (answer 200 "Expected response"))
    (with_flags true false true hm_test))))) = ResultWarn.
Proof. reflexivity. Qed.

Example fresh_certificate_is_Up :
  Result_ (BaseResp (fst (run (Monitor
    (tls_server (90 * 24 * time.Hour) (answer 200 "Expected response"))
    (with_flags true false true hm_test))))) = ResultUp.
Proof. reflexivity. Qed.

(** [TestHttpMonitor_Monitor_Success] *)
Example Monitor_Success :
  let r := fst (run (Monitor (test_server (answer 200 "Expected response")) hm_test)) in
  Result_ (BaseResp r) = ResultUp /\ StatusCodeValid r = true /\
  ErrorMsg (BaseResp r) = EmptyString /\ DataValid r = false.
Proof. vm_compute. repeat split. Qed.

(** [TestHttpMonitor_Monitor_Failure_StatusCode] *)
Example Monitor_Failure_StatusCode :
  let out := run (Monitor (test_server (answer 500 EmptyString))
                          (with_flags false false false hm_test)) in
  Result_ (BaseResp (fst out)) = ResultDown /\ StatusCodeValid (fst out) = false /\
  snd out = [ENow; ENewRequest; ENow; EDo (5 * time.Second) req_test; ENow].
Proof. vm_compute. repeat split. Qed.

(** [TestHttpMonitor_Monitor_Failure_ResponseBody] *)
Example Monitor_Failure_ResponseBody :
  let r := fst (run (Monitor (test_server (answer 200 "Unexpected response")) hm_test)) in
  Result_ (BaseResp r) = ResultDown /\
  ErrorMsg (BaseResp r) = "response is not as expected: Unexpected response".
Proof. vm_compute. repeat split. Qed.

(** A body that only contains the expected string does not pass. *)
Example body_is_not_matched_as_substring :
  let r := fst (run (Monitor (test_server (answer 200 "ok, fine"))
                             (with_expected "ok" hm_test))) in
  Result_ (BaseResp r) = ResultDown /\
  ErrorMsg (BaseResp r) = "response is not as expected: ok, fine".
Proof. vm_compute. repeat split. Qed.

Lemma transport_error_is_Down_witness :
  Result_ (BaseResp (fst (run (Monitor refused hm_test)))) = ResultDown /\
  ErrorMsg (BaseResp (fst (run (Monitor refused hm_test))))
  = "dial tcp 127.0.0.1:8080: connect: connection refused".
Proof.
  destruct (transport_error_is_Down refused hm_test (5 * time.Second) req_test
              "dial tcp 127.0.0.1:8080: connect: connection refused")
    as [Hres [Hmsg _]].
  - unfold sent. vm_compute. tauto.
  - reflexivity.
  - split; assumption.
Defined.

Lemma status_code_validation_witness :
  StatusCodeValid (fst (run (Monitor (test_server (answer 500 EmptyString))
                                     hm_test))) = false /\
  ~ In EReadAll (snd (run (Monitor (test_server (answer 500 EmptyString)) hm_test))).
Proof.
  destruct (status_code_validation (test_server (answer 500 EmptyString)) hm_test
              (5 * time.Second) req_test (answer 500 EmptyString))
    as [Hiff [_ Hdown]].
  - unfold sent. vm_compute. tauto.
  - reflexivity.
  - assert (Hf : StatusCodeValid
                   (fst (run (Monitor (test_server (answer 500 EmptyString))
                                      hm_test))) = false) by reflexivity.
    split; [exact Hf | exact (proj1 (proj2 (Hdown Hf)))].
Defined.

Lemma body_validation_witness :
  Result_ (BaseResp (fst (run (Monitor (test_server (answer 200 "fail"))
                                       (with_expected "ok" hm_test))))) = ResultDown /\
  ErrorMsg (BaseResp (fst (run (Monitor (test_server (answer 200 "fail"))
                                        (with_expected "ok" hm_test)))))
  = "response is not as expected: fail".
Proof.
  destruct (body_validation (test_server (answer 200 "fail"))
              (with_expected "ok" hm_test)
              (5 * time.Second) req_test (answer 200 "fail"))
    as [_ Hbody].
  - unfold sent. vm_compute. tauto.
  - reflexivity.
  - reflexivity.
  - reflexivity.
  - apply (Hbody "fail" eq_refl). discriminate.
Defined.

End probe_spec.

(** ** The store: claim, release and the due list *)
Module db_spec.
Import monitor db.

Lemma In_update_where (p : HttpMonitor -> bool) (f : HttpMonitor -> HttpMonitor)
      (rows : list HttpMonitor) (r' : HttpMonitor) :
  In r' (update_where p f rows) <->
  exists r, In r rows /\ r' = (if p r then f r else r).
Proof.
  unfold update_where. rewrite in_map_iff.
  split; intros [r [H1 H2]]; exists r; auto.
Qed.

Lemma RowsAffected_zero (p : HttpMonitor -> bool) (rows : list HttpMonitor) :
  RowsAffected p rows = O <-> forall r, In r rows -> p r = false.
Proof.
  unfold RowsAffected. induction rows as [|r rows IH]; cbn.
  - split; [intros _ r [] | reflexivity].
  - destruct (p r) eqn:Hp; cbn.
    + split; [discriminate|]. intros Hall.
      specialize (Hall r (or_introl eq_refl)). congruence.
    + rewrite IH. split.
      * intros Hall r' [<- | Hin]; auto.
      * intros Hall r' Hin. apply Hall. now right.
Qed.

Lemma id_is_true (id : N) (r : HttpMonitor) :
  id_is id r = true <-> ID (Base r) = id.
Proof. unfold id_is. apply N.eqb_eq. Qed.

(** Some row carries the identifier. *)
Lemma RowsAffected_nonzero (id : N) (rows : list HttpMonitor) :
  RowsAffected (id_is id) rows <> O <->
  exists r, In r rows /\ ID (Base r) = id.
Proof.
  rewrite RowsAffected_zero. split.
  - intros Hn. induction rows as [|r rows IH].
    + exfalso. apply Hn. intros r [].
    + destruct (id_is id r) eqn:Hid.
      * exists r. split; [now left | now apply id_is_true].
      * destruct IH as [r' [Hin Hr']].
        -- intros Hall. apply Hn. intros r' [<- | Hin]; auto.
        -- exists r'. split; [now right | assumption].
  - intros [r [Hin Hid]] Hall. apply id_is_true in Hid.
    rewrite (Hall r Hin) in Hid. discriminate.
Qed.

Lemma update_where_same_ids (id : N) (f : HttpMonitor -> HttpMonitor)
      (rows : list HttpMonitor) :
  (forall r, ID (Base (f r)) = ID (Base r)) ->
  RowsAffected (id_is id) (update_where (id_is id) f rows)
  = RowsAffected (id_is id) rows.
Proof.
  intros Hf. unfold RowsAffected, update_where.
  induction rows as [|r rows IH]; cbn; [reflexivity|].
  destruct (id_is id r) eqn:Hid.
  - assert (Hid' : id_is id (f r) = true).
    { apply id_is_true. rewrite Hf. now apply id_is_true. }
    rewrite Hid'. cbn. now rewrite IH.
  - rewrite Hid. exact IH.
Qed.

(** What [Lock] returns, by the number of rows with the identifier. *)
Lemma Lock_error (mon : HttpMonitor) (d : Db) :
  fst (Lock None mon d)
  = if Nat.eqb (RowsAffected (id_is (ID (Base mon))) (http_monitors d)) 0
    then Some ("monitor with ID " ++ fmt_d (ID (Base mon)) ++ " not found")
    else None.
Proof.
  unfold Lock, GetBase. cbn.
  destruct (Nat.eqb _ 0); reflexivity.
Qed.

Lemma Lock_rows (mon : HttpMonitor) (d : Db) :
  http_monitors (snd (Lock None mon d))
  = update_where (id_is (ID (Base mon))) (set_is_monitoring true) (http_monitors d).
Proof.
  unfold Lock, GetBase. cbn.
  destruct (Nat.eqb _ 0); reflexivity.
Qed.

Lemma Unlock_rows (nowTime : time.Time) (mon : HttpMonitor) (d : Db) :
  http_monitors (snd (Unlock None nowTime mon d))
  = update_where (id_is (ID (Base mon)))
                 (fun r => set_last_monitor_time nowTime (set_is_monitoring false r))
                 (http_monitors d).
Proof.
  unfold Unlock, GetBase. cbn.
  destruct (Nat.eqb _ 0); reflexivity.
Qed.

(** C1, as amended: [Lock] is one unconditional update.  With the
    statement itself going through, it returns nil exactly when some stored
    monitor carries the identifier, whatever the in-flight flag of that
    monitor; its only failure of its own is "monitor with ID n not found";
    afterwards every monitor with the identifier is in flight and the other
    rows are as before; and a claim that follows a successful claim
    succeeds again.  The other text of [Lock] returns nil whenever the
    statement goes through. *)
Theorem Lock_succeeds_iff_monitor_exists (mon : HttpMonitor) (d : Db) :
  (fst (Lock None mon d) = None <->
   exists r, In r (http_monitors d) /\ ID (Base r) = ID (Base mon)) /\
  (fst (Lock None mon d) = None \/
   fst (Lock None mon d)
   = Some ("monitor with ID " ++ fmt_d (ID (Base mon)) ++ " not found")) /\
  (forall r, In r (http_monitors (snd (Lock None mon d))) ->
             ID (Base r) = ID (Base mon) -> IsMonitoring (Base r) = true) /\
  (forall r, ID (Base r) <> ID (Base mon) ->
             (In r (http_monitors (snd (Lock None mon d))) <->
              In r (http_monitors d))) /\
  (fst (Lock None mon d) = None ->
   fst (Lock None mon (snd (Lock None mon d))) = None) /\
  fst (db_part_001.Lock None mon d) = None.
Proof.
  repeat split.
  - rewrite Lock_error. intros Hok. apply RowsAffected_nonzero.
    destruct (Nat.eqb_spec (RowsAffected (id_is (ID (Base mon))) (http_monitors d)) 0);
      [discriminate | assumption].
  - intros Hex. apply RowsAffected_nonzero in Hex. rewrite Lock_error.
    destruct (Nat.eqb_spec (RowsAffected (id_is (ID (Base mon))) (http_monitors d)) 0);
      [contradiction | reflexivity].
  - rewrite Lock_error. destruct (Nat.eqb _ 0); auto.
  - intros r Hin Hid. rewrite Lock_rows in Hin.
    apply In_update_where in Hin. destruct Hin as [r0 [_ ->]].
    destruct (id_is (ID (Base mon)) r0) eqn:Hr0; [reflexivity|].
    apply id_is_true in Hid. congruence.
  - rewrite Lock_rows. intros Hin. apply In_update_where in Hin.
    destruct Hin as [r0 [Hin ->]].
    destruct (id_is (ID (Base mon)) r0) eqn:Hr0; [|assumption].
    exfalso. apply H. apply id_is_true in Hr0. exact Hr0.
  - rewrite Lock_rows. intros Hin. apply In_update_where. exists r.
    split; [assumption|].
    destruct (id_is (ID (Base mon)) r) eqn:Hr; [|reflexivity].
    exfalso. apply H. now apply id_is_true.
  - rewrite !Lock_error, Lock_rows, update_where_same_ids by reflexivity.
    auto.
Qed.

(** A driver error fails any of the three statements and leaves the
    store alone. *)
Lemma driver_error_changes_nothing (e : error) (t : time.Time)
      (mon : HttpMonitor) (res : HttpResponse) (d : Db) :
  Lock (Some e) mon d = (Some e, d) /\
  Unlock (Some e) t mon d = (Some e, d) /\
  SaveResult (Some e) res d = (Some e, d).
Proof. repeat split. Qed.

(** *** Release *)

(** [Unlock] is one update of both columns: with the statement going
    through, every monitor with the identifier ends up out of flight and
    stamped with the reading of the clock, and the other rows are as
    before.  Nothing of the probe is an input of [Unlock]. *)
Lemma Unlock_clears_and_stamps (nowTime : time.Time) (mon : HttpMonitor) (d : Db) :
  (forall r, In r (http_monitors (snd (Unlock None nowTime mon d))) ->
             ID (Base r) = ID (Base mon) ->
             IsMonitoring (Base r) = false /\ LastMonitorTime (Base r) = nowTime) /\
  (forall r, ID (Base r) <> ID (Base mon) ->
             (In r (http_monitors (snd (Unlock None nowTime mon d))) <->
              In r (http_monitors d))) /\
  (fst (Unlock None nowTime mon d) = None <->
   exists r, In r (http_monitors d) /\ ID (Base r) = ID (Base mon)).
Proof.
  split; [|split].
  - intros r Hin Hid. rewrite Unlock_rows in Hin.
    apply In_update_where in Hin. destruct Hin as [r0 [_ ->]].
    destruct (id_is (ID (Base mon)) r0) eqn:Hr0; [split; reflexivity|].
    apply id_is_true in Hid. congruence.
  - intros r Hne. rewrite Unlock_rows. split.
    + intros Hin. apply In_update_where in Hin.
      destruct Hin as [r0 [Hin ->]].
      destruct (id_is (ID (Base mon)) r0) eqn:Hr0; [|assumption].
      exfalso. apply Hne. apply id_is_true in Hr0. exact Hr0.
    + intros Hin. apply In_update_where. exists r.
      split; [assumption|].
      destruct (id_is (ID (Base mon)) r) eqn:Hr; [|reflexivity].
      exfalso. apply Hne. now apply id_is_true.
  - rewrite <- RowsAffected_nonzero. unfold Unlock, GetBase.
    destruct (Nat.eqb_spec (RowsAffected (id_is (ID (Base mon))) (http_monitors d)) 0);
      cbn; split; congruence.
Qed.

(** The two texts of [Unlock] run the same update. *)
Lemma Unlock_texts_agree (nowTime : time.Time) (mon : HttpMonitor) (d : Db) :
  snd (db_part_001.Unlock None nowTime mon d) = snd (Unlock None nowTime mon d).
Proof.
  unfold db_part_001.Unlock, Unlock.
  destruct (Nat.eqb _ 0); reflexivity.
Qed.

(** The rows that carry an identifier keep carrying it through a claim
    and through a stored result. *)
Lemma Lock_keeps_ids (drv : option error) (mon : HttpMonitor) (d : Db) (id : N) :
  (exists r, In r (http_monitors (snd (Lock drv mon d))) /\ ID (Base r) = id) <->
  (exists r, In r (http_monitors d) /\ ID (Base r) = id).
Proof.
  destruct drv as [e|]; [reflexivity|].
  rewrite Lock_rows. split.
  - intros [r [Hin Hid]]. apply In_update_where in Hin.
    destruct Hin as [r0 [Hin ->]]. exists r0. split; [assumption|].
    destruct (id_is _ r0); assumption.
  - intros [r [Hin Hid]].
    exists (if id_is (ID (Base mon)) r then set_is_monitoring true r else r).
    split.
    + apply In_update_where. eauto.
    + destruct (id_is _ r); assumption.
Qed.

Lemma SaveResult_keeps_monitors (drv : option error) (res : HttpResponse) (d : Db) :
  http_monitors (snd (SaveResult drv res d)) = http_monitors d.
Proof. destruct drv; reflexivity. Qed.

(** *** The due list *)
Section DueList.
Context `{Json}.

(** [AfterFind] touches the interval and no other column of the base. *)
Lemma AfterFind_base (row m : HttpMonitor) :
  AfterFind row = (None, m) ->
  Base m = set_Interval (IntervalInt (Base row)) (Base row).
Proof.
  unfold AfterFind, BaseMonitor_AfterFind. cbn.
  destruct (String.eqb (ValidStatusCodesJSON row) EmptyString);
    [|destruct (Unmarshal_ints (ValidStatusCodesJSON row)) as [e|codes];
      [discriminate|]];
    cbn;
    (destruct (String.eqb (ReqHeadersJSON row) EmptyString);
     [|destruct (Unmarshal_headers (ReqHeadersJSON row)) as [e'|hs];
       [discriminate|]]);
    cbn; intros Heq; injection Heq as <-; reflexivity.
Qed.

Lemma loaded_base (r m : HttpMonitor) :
  loaded r m -> Base m = set_Interval (IntervalInt (Base r)) (Base r).
Proof. intros Hl. apply AfterFind_base in Hl. exact Hl. Qed.

Lemma Find_inr (rows ms : list HttpMonitor) :
  Find rows = inr ms -> Forall2 loaded rows ms.
Proof.
  revert ms. induction rows as [|r rows IH]; cbn [Find]; intros ms.
  - intros Hf. injection Hf as <-. constructor.
  - destruct (AfterFind (scan r)) as [[e|] m] eqn:Hr; [discriminate|].
    destruct (Find rows) as [e|ms'] eqn:Hrest; [discriminate|].
    intros Hf. injection Hf as <-.
    constructor; [exact Hr | apply IH; reflexivity].
Qed.

Lemma Find_total (rows : list HttpMonitor) :
  (forall r, In r rows -> fst (AfterFind (scan r)) = None) ->
  exists ms, Find rows = inr ms.
Proof.
  induction rows as [|r rows IH]; cbn [Find]; intros Hall.
  - eexists; reflexivity.
  - pose proof (Hall r (or_introl eq_refl)) as Hr.
    destruct (AfterFind (scan r)) as [[e|] m]; [discriminate|].
    destruct IH as [ms Hms]; [intros r' Hin; apply Hall; now right|].
    rewrite Hms. eexists; reflexivity.
Qed.

Lemma Forall2_In_r {A B} (R : A -> B -> Prop) (l : list A) (l' : list B) (b : B) :
  Forall2 R l l' -> In b l' -> exists a, In a l /\ R a b.
Proof.
  induction 1 as [|a b' l l' Hab _ IH]; cbn; [intros []|].
  intros [<- | Hin]; [eauto|].
  destruct (IH Hin) as [a' [Ha' HR]]. eauto.
Qed.

Lemma Forall2_In_l {A B} (R : A -> B -> Prop) (l : list A) (l' : list B) (a : A) :
  Forall2 R l l' -> In a l -> exists b, In b l' /\ R a b.
Proof.
  induction 1 as [|a' b l l' Hab _ IH]; cbn; [intros []|].
  intros [<- | Hin]; [eauto|].
  destruct (IH Hin) as [b' [Hb' HR]]. eauto.
Qed.

(** C4, as amended: when the query goes through, the monitors that
    [GetMonitorsToRun] returns are exactly the stored monitors, as
    loaded, that are enabled, not in flight, and whose last run plus
    interval lies strictly before the reading of the clock; the query
    goes through when the statement does and every enabled idle row
    passes its load hook. *)
Theorem GetMonitorsToRun_returns_strictly_due (nowTime : time.Time) (d : Db) :
  (forall ms, GetMonitorsToRun None nowTime d = inr ms ->
     forall m, In m ms <->
       exists r, In r (http_monitors d) /\ loaded r m /\
                 Enabled (Base r) = true /\ IsMonitoring (Base r) = false /\
                 LastMonitorTime (Base r) + IntervalInt (Base r) < nowTime) /\
  ((forall r, In r (http_monitors d) -> enabled_and_idle r = true ->
              fst (AfterFind (scan r)) = None) ->
   exists ms, GetMonitorsToRun None nowTime d = inr ms).
Proof.
  split.
  - unfold GetMonitorsToRun. intros ms Hq m.
    destruct (Find (filter enabled_and_idle (http_monitors d))) as [e|found] eqn:Hf;
      [discriminate|].
    injection Hq as <-. apply Find_inr in Hf.
    rewrite filter_In. unfold interval_elapsed, time.Before, time.Add.
    rewrite Z.ltb_lt. split.
    + intros [Hin Hlt].
      destruct (Forall2_In_r _ _ _ _ Hf Hin) as [r [Hr Hl]].
      apply filter_In in Hr. destruct Hr as [Hr Hei].
      unfold enabled_and_idle in Hei. apply andb_true_iff in Hei.
      destruct Hei as [He Hi]. apply negb_true_iff in Hi.
      rewrite (loaded_base _ _ Hl) in Hlt. cbn in Hlt.
      exists r. auto.
    + intros [r [Hr [Hl [He [Hi Hlt]]]]].
      assert (Hrf : In r (filter enabled_and_idle (http_monitors d))).
      { apply filter_In. split; [assumption|].
        unfold enabled_and_idle. rewrite He, Hi. reflexivity. }
      destruct (Forall2_In_l _ _ _ _ Hf Hrf) as [m' [Hm' Hl']].
      assert (m' = m) by (unfold loaded in *; congruence). subst m'.
      split; [assumption|].
      rewrite (loaded_base _ _ Hl). cbn. assumption.
  - intros Hall. unfold GetMonitorsToRun.
    destruct (Find_total (filter enabled_and_idle (http_monitors d))) as [ms Hms].
    + intros r Hr. apply filter_In in Hr. destruct Hr. auto.
    + rewrite Hms. eexists; reflexivity.
Qed.

End DueList.

Import fixtures.

(** C4, the claim as stated fails: a stored monitor, enabled and not in
    flight, whose last run plus interval equals the reading of the clock,
    satisfies the stated predicate and is not returned. *)
Lemma GetMonitorsToRun_skips_monitor_due_now :
  let nowTime := clock_2026 0 in
  let d := store [stored false (nowTime - time.Minute)] in
  ~ (forall ms, GetMonitorsToRun None nowTime d = inr ms ->
     forall r, In r (http_monitors d) ->
               Enabled (Base r) = true -> IsMonitoring (Base r) = false ->
               LastMonitorTime (Base r) + IntervalInt (Base r) <= nowTime ->
               exists m, In m ms /\ ID (Base m) = ID (Base r)).
Proof.
  cbv zeta. intros Hclaim.
  destruct (Hclaim [] eq_refl _ (or_introl eq_refl) eq_refl eq_refl)
    as [m [[] _]].
  vm_compute. discriminate.
Qed.

(** [TestGetMonitorsToRun]: last run two minutes ago, interval one
    minute. *)
Example GetMonitorsToRun_returns_due_monitor :
  let nowTime := clock_2026 0 in
  option_map (map (fun m => ID (Base m)))
    (match GetMonitorsToRun None nowTime
             (store [stored false (nowTime - 2 * time.Minute)]) with
     | inr ms => Some ms
     | inl _ => None
     end) = Some [1%N].
Proof. reflexivity. Qed.

Lemma GetMonitorsToRun_returns_strictly_due_witness :
  let nowTime := clock_2026 0 in
  let r := stored false (nowTime - 2 * time.Minute) in
  exists m, GetMonitorsToRun None nowTime (store [r]) = inr [m] /\ loaded r m.
Proof.
  cbv zeta.
  destruct (GetMonitorsToRun_returns_strictly_due (clock_2026 0)
              (store [stored false (clock_2026 0 - 2 * time.Minute)]))
    as [Hexact _].
  eexists. split; [reflexivity|].
  destruct (proj1 (Hexact _ eq_refl _) (or_introl eq_refl))
    as [r [[<- | []] [Hl _]]].
  exact Hl.
Defined.

(** C1, the claim as stated fails: a claim on a monitor that is already
    in flight returns nil. *)
Lemma Lock_succeeds_while_in_flight :
  let d := store [stored true time.zero] in
  let mon := stored false time.zero in
  ~ (fst (Lock None mon d) = None <->
     exists r, In r (http_monitors d) /\ ID (Base r) = ID (Base mon) /\
               IsMonitoring (Base r) = false).
Proof.
  cbv zeta. intros [Hclaim _].
  destruct (Hclaim eq_refl) as [r [[<- | []] [_ Hflag]]].
  discriminate Hflag.
Qed.

Lemma Lock_succeeds_iff_monitor_exists_witness :
  let d := store [stored true time.zero] in
  let mon := stored false time.zero in
  fst (Lock None mon d) = None /\
  fst (Lock None mon (snd (Lock None mon d))) = None.
Proof.
  cbv zeta.
  destruct (Lock_succeeds_iff_monitor_exists
              (stored false time.zero) (store [stored true time.zero]))
    as [[_ Hexists] [_ [_ [_ [Hagain _]]]]].
  assert (Hok : fst (Lock None (stored false time.zero)
                          (store [stored true time.zero])) = None).
  { apply Hexists. eexists. split; [left; reflexivity | reflexivity]. }
  split; [exact Hok | exact (Hagain Hok)].
Defined.

(** Scenario 6 of the specification, on the code: two claims in a row on
    the same monitor, no release in between, and both return nil. *)
Example two_claims_both_succeed :
  let d := store [stored false time.zero] in
  let mon := stored false time.zero in
  fst (Lock None mon d) = None /\
  fst (Lock None mon (snd (Lock None mon d))) = None.
Proof. split; reflexivity. Qed.

(** [TestLock_Error]: nothing stored. *)
Example Lock_Error :
  fst (Lock None (stored false time.zero) (store []))
  = Some "monitor with ID 1 not found".
Proof. reflexivity. Qed.

End db_spec.

(** ** The work unit and the shutdown of the pool *)
Module manager_spec.
Import monitor manager.
Local Open Scope list_scope.

(** A failed claim ends the work unit at once: no probe, no stored
    result, no release. *)
Lemma work_abandons_on_failed_claim (w : WorkWorld) (mon : HttpMonitor)
      (d : db.Db) (e : error) :
  fst (db.Lock (lock_drv w) mon d) = Some e ->
  work w mon d = (Return (Some e), snd (db.Lock (lock_drv w) mon d), [CLock]).
Proof.
  unfold work. destruct (db.Lock (lock_drv w) mon d) as [err d1]. cbn.
  intros ->. reflexivity.
Qed.

(** C3: after a successful claim, however the probe ends (it returns a
    result, of whatever outcome, or it panics) and whether or not the
    result could be stored, the last call of the work unit is [Unlock];
    and when that statement goes through, the claimed monitor is still
    stored, is out of flight, and carries the reading of the clock at the
    release as its last run. *)
Theorem work_releases_on_every_exit (w : WorkWorld) (mon : HttpMonitor)
        (d : db.Db) :
  fst (db.Lock (lock_drv w) mon d) = None ->
  let '(exit, d', calls) := work w mon d in
  exit = match probe w with
         | Panic v => Panic v
         | Return _ => Return (save_drv w)
         end /\
  (exists middle, calls = CLock :: middle ++ [CUnlock]) /\
  (unlock_drv w = None ->
   (exists r, In r (db.http_monitors d') /\ ID (Base r) = ID (Base mon)) /\
   (forall r, In r (db.http_monitors d') -> ID (Base r) = ID (Base mon) ->
              IsMonitoring (Base r) = false /\
              LastMonitorTime (Base r) = unlock_now w)).
Proof.
  intros Hlock. unfold work.
  assert (Hdrv : lock_drv w = None).
  { destruct (lock_drv w); [discriminate Hlock | reflexivity]. }
  rewrite Hdrv in *.
  assert (Hex : exists r, In r (db.http_monitors d) /\ ID (Base r) = ID (Base mon)).
  { rewrite db_spec.Lock_error in Hlock.
    apply db_spec.RowsAffected_nonzero.
    destruct (Nat.eqb_spec (db.RowsAffected (db.id_is (ID (Base mon)))
                                            (db.http_monitors d)) 0);
      [discriminate Hlock | assumption]. }
  apply (db_spec.Lock_keeps_ids None mon d) in Hex.
  destruct (db.Lock None mon d) as [err d1]. cbn in Hlock. subst err.
  cbn [snd] in Hex.
  destruct (probe w) as [result | v].
  - assert (Hrows : db.http_monitors (snd (db.SaveResult (save_drv w) result d1))
                    = db.http_monitors d1)
      by apply db_spec.SaveResult_keeps_monitors.
    assert (Herr : fst (db.SaveResult (save_drv w) result d1) = save_drv w)
      by (destruct (save_drv w); reflexivity).
    destruct (db.SaveResult (save_drv w) result d1) as [err d2].
    cbn [fst snd] in Hrows, Herr. subst err.
    assert (Hgoal :
      forall ex : Exit (option error),
        ex = Return (save_drv w) ->
        let '(exit, d', calls) :=
          let (_, d3) := db.Unlock (unlock_drv w) (unlock_now w) mon d2 in
          (ex, d3, CLock :: [CMonitor; CSaveResult] ++ [CUnlock]) in
        exit = Return (save_drv w) /\
        (exists middle, calls = CLock :: middle ++ [CUnlock]) /\
        (unlock_drv w = None ->
         (exists r, In r (db.http_monitors d') /\ ID (Base r) = ID (Base mon)) /\
         (forall r, In r (db.http_monitors d') -> ID (Base r) = ID (Base mon) ->
                    IsMonitoring (Base r) = false /\
                    LastMonitorTime (Base r) = unlock_now w))).
    { intros ex ->.
      destruct (db.Unlock (unlock_drv w) (unlock_now w) mon d2) as [ue d3] eqn:Hu.
      split; [reflexivity|]. split; [eexists; reflexivity|].
      intros Hud. rewrite Hud in Hu.
      assert (Hd3 : d3 = snd (db.Unlock None (unlock_now w) mon d2))
        by (rewrite Hu; reflexivity).
      subst d3.
      destruct (db_spec.Unlock_clears_and_stamps (unlock_now w) mon d2)
        as [Hset _].
      split; [|exact Hset].
      rewrite db_spec.Unlock_rows. rewrite Hrows.
      destruct Hex as [r [Hin Hid]].
      exists (db.set_last_monitor_time (unlock_now w) (db.set_is_monitoring false r)).
      split; [|exact Hid].
      apply db_spec.In_update_where. exists r. split; [assumption|].
      apply db_spec.id_is_true in Hid. rewrite Hid. reflexivity. }
    destruct (save_drv w); apply Hgoal; reflexivity.
  - destruct (db.Unlock (unlock_drv w) (unlock_now w) mon d1) as [ue d3] eqn:Hu.
    split; [reflexivity|]. split; [eexists; reflexivity|].
    intros Hud. rewrite Hud in Hu.
    assert (Hd3 : d3 = snd (db.Unlock None (unlock_now w) mon d1))
      by (rewrite Hu; reflexivity).
    subst d3.
    destruct (db_spec.Unlock_clears_and_stamps (unlock_now w) mon d1)
      as [Hset _].
    split; [|exact Hset].
    rewrite db_spec.Unlock_rows.
    destruct Hex as [r [Hin Hid]].
    exists (db.set_last_monitor_time (unlock_now w) (db.set_is_monitoring false r)).
    split; [|exact Hid].
    apply db_spec.In_update_where. exists r. split; [assumption|].
    apply db_spec.id_is_true in Hid. rewrite Hid. reflexivity.
Qed.


(** *** Shutdown *)

#[local] Arguments alive_count : simpl never.

Lemma steps_trans (s1 s2 s3 : State) :
  steps s1 s2 -> steps s2 s3 -> steps s1 s3.
Proof.
  induction 1 as [|a b c Hab _ IH]; [auto|].
  intros Hc. eapply steps_step; [exact Hab | exact (IH Hc)].
Qed.

Lemma steps_one (s1 s2 : State) : step s1 s2 -> steps s1 s2.
Proof. intros Hs. eapply steps_step; [exact Hs | apply steps_refl]. Qed.

Lemma alive_count_app (ws1 ws2 : list WorkerPc) :
  alive_count (ws1 ++ ws2) = (alive_count ws1 + alive_count ws2)%nat.
Proof. unfold alive_count. rewrite filter_app, length_app. reflexivity. Qed.

Lemma alive_count_cons (w : WorkerPc) (ws : list WorkerPc) :
  alive_count (w :: ws)
  = ((if alive w then 1 else 0) + alive_count ws)%nat.
Proof. unfold alive_count. cbn. destruct (alive w); reflexivity. Qed.

Lemma Inv_startWorkerPool (n : nat) (s : State) :
  Inv s -> Inv (startWorkerPool n s).
Proof.
  revert s. induction n as [|n IH]; cbn; intros s Hs; [assumption|].
  apply IH. destruct Hs as [H1 H2 H3 H4]. constructor; cbn; auto.
  rewrite alive_count_app, H2. unfold alive_count. cbn. lia.
Qed.

Lemma Inv_init : Inv init.
Proof.
  apply Inv_startWorkerPool. constructor; cbn; try discriminate.
  reflexivity.
Qed.

Lemma Inv_step (s s' : State) : step s s' -> Inv s -> Inv s'.
Proof.
  intros Hstep [H1 H2 H3 H4].
  inversion Hstep; subst; constructor; cbn in *; auto;
    try discriminate; try congruence.
  all: try (intros e' He'; injection He' as <-; assumption).
  all: try (intros e' He'; rewrite He' in *; discriminate).
  all: try match goal with
           | Hw : workers _ = _ |- _ =>
               rewrite H2, Hw, !alive_count_app, !alive_count_cons; cbn; lia
           end.
  all: intros e' He'; specialize (H1 e' He'); congruence.
Qed.

Lemma Inv_reachable (s : State) : reachable s -> Inv s.
Proof.
  unfold reachable. intros Hr.
  assert (Hgen : forall a b, steps a b -> Inv a -> Inv b).
  { induction 1; eauto using Inv_step. }
  exact (Hgen _ _ Hr Inv_init).
Qed.

(** Once the context is cancelled, the workers still to leave can all
    leave, one after the other, whatever [Run] does. *)
Lemma workers_drain (todo : list WorkerPc) :
  forall (gone : list WorkerPc) (s : State) (e : error),
    ctx_err s = Some e ->
    workers s = gone ++ todo ->
    exists s', steps s s' /\
               ctx_err s' = ctx_err s /\ ch_closed s' = ch_closed s /\
               run_pc s' = run_pc s /\ closer_pc s' = closer_pc s /\
               workers s' = gone ++ map (fun _ => WExited) todo /\
               wg s' = (wg s - alive_count todo)%nat.
Proof.
  induction todo as [|w todo IH]; intros gone s e Hctx Hws.
  - exists s. cbn. repeat split; try apply steps_refl; auto.
    unfold alive_count. cbn. lia.
  - assert (Hexit : forall s0, ctx_err s0 = Some e -> workers s0 = gone ++ WSelect :: todo ->
              exists s', steps s0 s' /\
               ctx_err s' = ctx_err s0 /\ ch_closed s' = ch_closed s0 /\
               run_pc s' = run_pc s0 /\ closer_pc s' = closer_pc s0 /\
               workers s' = gone ++ map (fun _ => WExited) (WSelect :: todo) /\
               wg s' = (wg s0 - S (alive_count todo))%nat).
    { intros s0 Hc0 Hw0.
      pose proof (step_worker_done s0 e gone todo Hc0 Hw0) as Hst.
      destruct (IH (gone ++ [WExited]) (worker_exit (gone ++ WExited :: todo) s0) e)
        as [s' [Hs' [Ha [Hb [Hc [Hd [He Hf]]]]]]];
        [exact Hc0 | cbn; rewrite <- app_assoc; reflexivity |].
      exists s'. cbn in *. rewrite <- app_assoc in He. cbn in He.
      repeat split; auto.
      - eapply steps_step; eassumption.
      - rewrite Hf. lia. }
    destruct w as [|mon|].
    + destruct (Hexit s Hctx Hws) as [s' Hs']. exists s'.
      rewrite alive_count_cons. exact Hs'.
    + pose proof (step_worker_worked s mon gone todo Hws) as Hst.
      destruct (Hexit (with_workers (gone ++ WSelect :: todo) s) Hctx eq_refl)
        as [s' [Hs' Hrest]].
      exists s'. rewrite alive_count_cons. cbn in *.
      split; [eapply steps_step; eassumption | exact Hrest].
    + destruct (IH (gone ++ [WExited]) s e Hctx) as [s' Hs'];
        [rewrite <- app_assoc; exact Hws|].
      exists s'. rewrite alive_count_cons. cbn.
      rewrite <- app_assoc in Hs'. exact Hs'.
Qed.


Import fixtures.

Lemma init_pool :
  init = {| ctx_err := None; ch_closed := false; wg := 10; run_pc := RSelect;
            closer_pc := CWaiting; workers := repeat WSelect 10 |}.
Proof. reflexivity. Qed.

(** The pool reaches [cancelled] in one step, and [Run] returns in the
    next. *)
Lemma cancelled_reachable : reachable cancelled.
Proof.
  unfold reachable. apply steps_one.
  exact (step_cancel init "context canceled" eq_refl).
Qed.

Lemma returned_reachable : reachable (with_run (RReturned "context canceled") cancelled).
Proof.
  unfold reachable. eapply steps_trans; [exact cancelled_reachable|].
  apply steps_one.
  exact (step_run_done cancelled "context canceled" eq_refl eq_refl).
Qed.

(** After the cancellation the send case of the inner select can meet
    the closed channel: [Run] then panics instead of returning. *)
Example Run_can_panic_on_closed_channel :
  reachable closed_while_dispatching /\
  step closed_while_dispatching (with_run RPanicked closed_while_dispatching).
Proof.
  split.
  - unfold reachable.
    eapply steps_step;
      [exact (step_run_tick init [stored false time.zero] eq_refl)|].
    eapply steps_step;
      [exact (step_cancel (with_run (RDispatch [stored false time.zero]) init)
                          "context canceled" eq_refl)|].
    apply steps_one.
    exact (step_close
             {| ctx_err := Some "context canceled"; ch_closed := false; wg := 10;
                run_pc := RDispatch [stored false time.zero];
                closer_pc := CWaiting; workers := repeat WSelect 10 |}
             "context canceled" eq_refl eq_refl).
  - exact (step_run_send_closed closed_while_dispatching
             (stored false time.zero) [] eq_refl eq_refl).
Qed.




(** The four ways out of a work unit, from a store that holds the
    monitor: the probe ends Up, the probe ends Down, the result cannot be
    stored, the probe panics.  Each time the store ends with the monitor
    released and stamped. *)
Example work_probe_Up :
  let res := fst (run (Monitor (test_server (answer 200 "Expected response")) hm_test)) in
  let '(exit, d', calls) :=
    work (work_world (Return res) None) (stored false time.zero)
         (store [stored false time.zero]) in
  exit = Return None /\ db.http_monitors d' = released /\
  db.http_responses d' = [res] /\
  calls = [CLock; CMonitor; CSaveResult; CUnlock].
Proof. vm_compute. repeat split. Qed.

Example work_probe_Down :
  let res := fst (run (Monitor (test_server (answer 500 EmptyString)) hm_test)) in
  let '(exit, d', calls) :=
    work (work_world (Return res) None) (stored false time.zero)
         (store [stored false time.zero]) in
  exit = Return None /\ db.http_monitors d' = released /\
  db.http_responses d' = [res] /\
  calls = [CLock; CMonitor; CSaveResult; CUnlock].
Proof. vm_compute. repeat split. Qed.

Example work_save_fails :
  let res := fst (run (Monitor (test_server (answer 200 "Expected response")) hm_test)) in
  let '(exit, d', calls) :=
    work (work_world (Return res) (Some "connection reset")) (stored false time.zero)
         (store [stored false time.zero]) in
  exit = Return (Some "connection reset") /\ db.http_monitors d' = released /\
  db.http_responses d' = [] /\
  calls = [CLock; CMonitor; CSaveResult; CUnlock].
Proof. vm_compute. repeat split. Qed.

Example work_probe_panics :
  let '(exit, d', calls) :=
    work (work_world (Panic "not implemented") None) (stored false time.zero)
         (store [stored false time.zero]) in
  exit = Panic "not implemented" /\ db.http_monitors d' = released /\
  db.http_responses d' = [] /\
  calls = [CLock; CMonitor; CUnlock].
Proof. vm_compute. repeat split. Qed.

Lemma work_releases_on_every_exit_witness :
  let r := db.set_last_monitor_time (clock_2026 7) (stored false time.zero) in
  IsMonitoring (Base r) = false /\ LastMonitorTime (Base r) = clock_2026 7.
Proof.
  pose proof (work_releases_on_every_exit
                (work_world (Panic "not implemented") None)
                (stored false time.zero)
                (store [stored false time.zero]) eq_refl) as Hw.
  destruct Hw as [_ [_ Hrel]].
  exact (proj2 (Hrel eq_refl) _ (or_introl eq_refl) eq_refl).
Defined.

End manager_spec.

(** ** More on the HTTP probe *)
Module probe_more.
Import monitor probe_tactics.

#[local] Arguments lo_Contains : simpl never.
#[local] Arguments time.Sub : simpl never.
#[local] Arguments time.Milliseconds : simpl never.
#[local] Arguments strings_Contains : simpl never.
#[local] Arguments String.eqb : simpl never.
#[local] Arguments String.append : simpl never.
#[local] Arguments fold_left : simpl never.
#[local] Arguments Header_Set : simpl never.
#[local] Arguments Z.ltb : simpl never.
#[local] Arguments Z.mul : simpl never.
#[local] Arguments Nat.ltb : simpl never.
#[local] Arguments String.length : simpl never.

(** A request that cannot be built ends the probe before anything goes
    out: the outcome is Down with the text of the builder's error, and the
    probe has read the clock once and called the builder, nothing else. *)
Theorem malformed_request_ends_before_network (w : World) (hm : HttpMonitor)
        (err : error) :
  NewRequest_err w (RequestMethod hm) (Address hm) = Some err ->
  Result_ (BaseResp (fst (run (Monitor w hm)))) = ResultDown /\
  ErrorMsg (BaseResp (fst (run (Monitor w hm)))) = err /\
  snd (run (Monitor w hm)) = [ENow; ENewRequest].
Proof.
  probe_paths r tr; intros Herr; try congruence.
  cbn. repeat split. congruence.
Qed.

(** The certificate check runs exactly when one of the two SSL flags is
    set, its result is what the response carries, and it never stops the
    probe: once the request is built, the request is sent, whatever the
    check found. *)
Theorem SSL_check_never_aborts (w : World) (hm : HttpMonitor) :
  NewRequest_err w (RequestMethod hm) (Address hm) = None ->
  (exists req, sent (snd (run (Monitor w hm))) (ReqTimeout hm) req) /\
  (In EUrlParse (snd (run (Monitor w hm))) <->
   ShouldCheckSSL hm || ShouldWarnOnSSLExpiry hm = true) /\
  SslResp (fst (run (Monitor w hm)))
  = (if ShouldCheckSSL hm || ShouldWarnOnSSLExpiry hm
     then fst (run (checkSSL w hm))
     else {| Valid := false; Expiry := time.zero |}).
Proof.
  unfold sent.
  probe_paths r tr; intros Hreq; try congruence.
  all: cbn; split; [eexists; intuition eauto|].
  all: split; [intuition (discriminate || auto)|].
  all: unfold run, checkSSL, bind, ret, emit; cbn.
  all: repeat match goal with
              | H : url_Parse _ _ = _ |- _ => rewrite H
              | H : tls_Dial _ _ = _ |- _ => rewrite H
              end; reflexivity.
Qed.

(** [checkSSL] reports a valid certificate exactly when the address
    parses and the TLS dial succeeds, and then the expiry is the one of the
    leaf certificate; it dials the host as parsed when the host has a
    colon and the host with ":443" appended otherwise, dials nothing when
    the address does not parse, and closes exactly the connections it
    opened. *)
Theorem checkSSL_result (w : World) (hm : HttpMonitor) :
  (Valid (fst (run (checkSSL w hm))) = true <->
   exists host notAfter,
     url_Parse w (Address hm) = inr host /\
     tls_Dial w (if strings_Contains host ":" then host else host ++ ":443")
     = inr notAfter /\
     Expiry (fst (run (checkSSL w hm))) = notAfter) /\
  (forall addr, In (ETlsDial addr) (snd (run (checkSSL w hm))) ->
     exists host, url_Parse w (Address hm) = inr host /\
                  addr = if strings_Contains host ":" then host else host ++ ":443") /\
  (In ETlsClose (snd (run (checkSSL w hm))) <->
   Valid (fst (run (checkSSL w hm))) = true).
Proof.
  unfold run, checkSSL, bind, ret, emit; cbn.
  destruct (url_Parse w (Address hm)) as [e|host] eqn:Hp; cbn.
  - split; [|split].
    + split; [discriminate | intros [h [n [Hh _]]]; discriminate].
    + intros addr [Hin | []]. discriminate.
    + split; [intros [Hin | []]; discriminate | discriminate].
  - destruct (strings_Contains host ":") eqn:Hc; cbn;
      destruct (tls_Dial w _) as [e|notAfter] eqn:Hd; cbn.
    all: split; [|split].
    all: try (split; [discriminate | intros [h [n [Hh [Hn _]]]];
                      injection Hh as <-; rewrite Hc in Hn; congruence]).
    all: try (split; [intros _; exists host, notAfter; rewrite Hc; auto
                     | reflexivity]).
    all: try (intros addr [Hin | [Hin | Hrest]];
              [discriminate
              | injection Hin as <-; exists host; rewrite Hc; auto
              | destruct Hrest as [Hin | []]; discriminate ]).
    all: try (intros addr [Hin | [Hin | []]];
              [discriminate
              | injection Hin as <-; exists host; rewrite Hc; auto ]).
    all: try (split; [intros [Hin | [Hin | []]]; discriminate | discriminate]).
    all: split; [reflexivity | intros _; right; right; left; reflexivity].
Qed.

(** *** The request as built *)

Lemma Header_lookup_filter (key k : string) (h : list (string * string)) :
  k <> key ->
  Header_lookup key (filter (fun kv => negb (String.eqb (fst kv) k)) h)
  = Header_lookup key h.
Proof.
  intros Hne. induction h as [|[k0 v0] h IH]; [reflexivity|].
  cbn [filter fst]. destruct (String.eqb_spec k0 k) as [->|Hk0]; cbn [negb].
  - cbn [Header_lookup]. destruct (String.eqb_spec k key); [contradiction|].
    exact IH.
  - cbn [Header_lookup]. rewrite IH. reflexivity.
Qed.

Lemma Header_lookup_Set (canon : string -> string) (key value k : string)
      (h : list (string * string)) :
  Header_lookup k (Header_Set canon key value h)
  = if String.eqb (canon key) k then Some value else Header_lookup k h.
Proof.
  unfold Header_Set. cbn [Header_lookup].
  destruct (String.eqb_spec (canon key) k) as [Heq|Hne]; [reflexivity|].
  apply Header_lookup_filter. exact Hne.
Qed.

Lemma Header_Set_NoDup (canon : string -> string) (key value : string)
      (h : list (string * string)) :
  NoDup (map fst h) -> NoDup (map fst (Header_Set canon key value h)).
Proof.
  intros Hnd. unfold Header_Set. cbn [map fst]. constructor.
  - intros Hin. apply in_map_iff in Hin. destruct Hin as [[k0 v0] [Hk Hin]].
    apply filter_In in Hin. destruct Hin as [_ Hf]. cbn in Hk, Hf. subst k0.
    rewrite String.eqb_refl in Hf. discriminate.
  - induction h as [|[k0 v0] h IH]; cbn [filter map fst]; [constructor|].
    inversion Hnd as [|? ? Hnotin Hnd']; subst.
    destruct (negb (String.eqb k0 (canon key))); [|auto].
    cbn [map fst]. constructor; [|auto].
    intros Hin. apply Hnotin. apply in_map_iff in Hin.
    destruct Hin as [kv [Hk Hin]]. apply filter_In in Hin.
    apply in_map_iff. exists kv. tauto.
Qed.

Lemma find_app {A} (f : A -> bool) (l1 l2 : list A) :
  find f (l1 ++ l2)
  = match find f l1 with Some x => Some x | None => find f l2 end.
Proof.
  induction l1 as [|a l1 IH]; [reflexivity|].
  cbn. destruct (f a); [reflexivity | exact IH].
Qed.

(** Setting the custom headers one after the other: the last header set
    under a canonical key is the one the request carries. *)
Lemma custom_headers_fold (canon : string -> string)
      (custom : list (string * string)) :
  forall req : Request,
    let req' :=
      fold_left (fun req kv =>
                   set_Header (Header_Set canon (fst kv) (snd kv) (Header req)) req)
                custom req in
    Method req' = Method req /\ URL req' = URL req /\ Body req' = Body req /\
    (NoDup (map fst (Header req)) -> NoDup (map fst (Header req'))) /\
    forall key,
      Header_lookup key (Header req')
      = match find (fun kv => String.eqb (canon (fst kv)) key) (rev custom) with
        | Some kv => Some (snd kv)
        | None => Header_lookup key (Header req)
        end.
Proof.
  induction custom as [|[k v] custom IH]; intros req; cbn zeta.
  - cbn. auto.
  - cbn [fold_left fst snd].
    destruct (IH (set_Header (Header_Set canon k v (Header req)) req))
      as [Hm [Hu [Hb [Hnd Hl]]]].
    cbn zeta in *. cbn [Method URL Body Header set_Header] in *.
    repeat split; auto.
    + intros Hn. apply Hnd. apply Header_Set_NoDup. exact Hn.
    + intros key. rewrite Hl. cbn [rev]. rewrite find_app.
      destruct (find _ (rev custom)); [reflexivity|].
      cbn [find fst snd]. rewrite Header_lookup_Set.
      destruct (String.eqb (canon k) key); reflexivity.
Qed.

Lemma nonempty_length (s : string) :
  (0 <? String.length s)%nat = negb (String.eqb s EmptyString).
Proof. destruct s; reflexivity. Qed.

Import fixtures.

Lemma malformed_request_ends_before_network_witness :
  ErrorMsg (BaseResp (fst (run (Monitor unbuildable hm_test))))
  = "net/http: invalid method" /\
  snd (run (Monitor unbuildable hm_test)) = [ENow; ENewRequest].
Proof.
  destruct (malformed_request_ends_before_network unbuildable hm_test
              "net/http: invalid method" eq_refl)
    as [_ [Hmsg Htr]].
  split; [exact Hmsg | exact Htr].
Defined.

Lemma SSL_check_never_aborts_witness :
  let hm := with_flags true true true hm_test in
  let w := test_server (answer 200 "Expected response") in
  Valid (SslResp (fst (run (Monitor w hm)))) = false /\
  exists req, sent (snd (run (Monitor w hm))) (ReqTimeout hm) req.
Proof.
  cbv zeta.
  destruct (SSL_check_never_aborts
              (test_server (answer 200 "Expected response"))
              (with_flags true true true hm_test) eq_refl)
    as [Hsent [_ Hssl]].
  split; [rewrite Hssl; reflexivity | exact Hsent].
Defined.

End probe_more.
